(** * zk-chess-clash: the escrow game lifecycle

    A shallow embedding of the request handlers of the wagering server
    ([index.ts]), of their helpers ([helpers.ts]: [validatedQueryParams],
    [validateSignature], [sendPayout], [getFee]) and of the store access
    functions ([db.ts]), followed by the properties of the lifecycle that
    the specification states.

    JavaScript numbers are IEEE 754 binary64 values: they are modelled by
    Rocq's primitive floats, whose operations are the same ones.  A
    JavaScript string is modelled by its UTF-8 encoding, the bytes that a
    string literal of this file holds.  Thrown
    values are explicit, the store and the ledger are explicit state, and
    the answers of the external services (ledger RPC, Lichess through the
    attestation client, the store) are read from an environment. *)

From Stdlib Require Import ZArith Floats String Ascii Bool List Lia.
From stdpp Require Import base option list gmap strings.
From stdpp Require Import relations.

Local Open Scope string_scope.
Local Open Scope float_scope.

(** ** JavaScript values *)

Module JS.

(** [number]: a binary64 float. *)
Definition number := float.

(** [Math.min] on two arguments: NaN if either is NaN, and -0 below +0. *)
Definition Math_min (a b : number) : number :=
  if is_nan a || is_nan b then PrimFloat.nan
  else if a <? b then a
  else if b <? a then b
  else if get_sign a then a else b.

(** Truthiness of a value that is a string, [undefined] or [null]:
    [if (query.gameId)] holds for a present, non-empty string. *)
Definition truthy (v : option string) : option string :=
  match v with
  | Some s => if String.eqb s "" then None else Some s
  | None => None
  end.

(** A property key made of a string or [undefined] (template of a computed
    key, [obj[k]]): [undefined] becomes the string "undefined". *)
Definition property_key (k : option string) : string :=
  match k with
  | Some s => s
  | None => "undefined"
  end.

(** A property key made of a string or [null], as the store returns a
    column without value: [null] becomes the string "null". *)
Definition nullable_key (k : option string) : string :=
  match k with
  | Some s => s
  | None => "null"
  end.

(** The names of the properties that an object literal inherits from
    [Object.prototype]; the value of each is a function or an object, never
    a string, and is truthy. *)
Definition Object_prototype_keys : list string :=
  ["constructor"; "__defineGetter__"; "__defineSetter__"; "hasOwnProperty";
   "__lookupGetter__"; "__lookupSetter__"; "isPrototypeOf"; "propertyIsEnumerable";
   "toString"; "valueOf"; "__proto__"; "toLocaleString"].

(** A number as JSON carries it: [JSON.stringify] writes NaN and the
    infinities as [null], and -0 as 0. *)
Definition JSON_number (x : number) : option number :=
  if is_finite x then Some (if is_zero x then PrimFloat.zero else x) else None.

(** [ToNumber] of a value that is a number or [null], as an arithmetic
    operator applies it: [null] is +0. *)
Definition ToNumber (x : option number) : number :=
  match x with
  | Some y => y
  | None => PrimFloat.zero
  end.

(** [x === y] for a number [x] and a value [y] that is a number or [null]. *)
Definition strict_equal (x : number) (y : option number) : bool :=
  match y with
  | Some z => x =? z
  | None => false
  end.

(** *** [parseFloat]

    The built-in skips leading white space and line terminators, reads the
    longest prefix that is a decimal literal (sign, digits, fraction,
    exponent, or Infinity) and returns the binary64 value nearest to it; NaN
    when there is no such prefix.  It never throws. *)

(** The white space and line terminators of one byte: U+0009 to U+000D and
    U+0020. *)
Definition is_white_space (c : ascii) : bool :=
  match c with
  | " "%char | "009"%char | "010"%char | "011"%char | "012"%char | "013"%char => true
  | _ => false
  end.

(** Of two bytes: U+00A0. *)
Definition is_white_space_2 (c1 c2 : ascii) : bool :=
  Ascii.eqb c1 "194" && Ascii.eqb c2 "160".

(** Of three bytes: U+1680, U+2000 to U+200A, U+2028, U+2029, U+202F,
    U+205F, U+3000 and U+FEFF. *)
Definition is_white_space_3 (c1 c2 c3 : ascii) : bool :=
  let n3 := nat_of_ascii c3 in
  (Ascii.eqb c1 "225" && Ascii.eqb c2 "154" && Ascii.eqb c3 "128")
  || (Ascii.eqb c1 "226" && Ascii.eqb c2 "128"
      && ((128 <=? n3)%nat && (n3 <=? 138)%nat
          || Ascii.eqb c3 "168" || Ascii.eqb c3 "169" || Ascii.eqb c3 "175"))
  || (Ascii.eqb c1 "226" && Ascii.eqb c2 "129" && Ascii.eqb c3 "159")
  || (Ascii.eqb c1 "227" && Ascii.eqb c2 "128" && Ascii.eqb c3 "128")
  || (Ascii.eqb c1 "239" && Ascii.eqb c2 "187" && Ascii.eqb c3 "191").

Fixpoint skip_white_space (s : string) : string :=
  match s with
  | String c1 rest1 =>
      if is_white_space c1 then skip_white_space rest1
      else
        match rest1 with
        | String c2 rest2 =>
            if is_white_space_2 c1 c2 then skip_white_space rest2
            else
              match rest2 with
              | String c3 rest3 =>
                  if is_white_space_3 c1 c2 c3 then skip_white_space rest3 else s
              | EmptyString => s
              end
        | EmptyString => s
        end
  | EmptyString => s
  end.

Definition digit_of (c : ascii) : option Z :=
  let n := Z.of_nat (nat_of_ascii c) in
  if ((48 <=? n) && (n <=? 57))%Z then Some (n - 48)%Z else None.

(** Reads decimal digits: the value accumulated so far, the number of
    digits read, and the rest of the string. *)
Fixpoint read_digits (s : string) (acc : Z) (count : nat) : Z * nat * string :=
  match s with
  | String c rest =>
      match digit_of c with
      | Some d => read_digits rest (acc * 10 + d)%Z (S count)
      | None => (acc, count, s)
      end
  | EmptyString => (acc, count, s)
  end.

(** The exponent part, [e] or [E], an optional sign and at least one digit;
    0 when the text after the mantissa is not an exponent part. *)
Definition read_exponent (s : string) : Z :=
  match s with
  | String c rest =>
      if Ascii.eqb c "e" || Ascii.eqb c "E" then
        let '(neg, rest') :=
          match rest with
          | String "-" r => (true, r)
          | String "+" r => (false, r)
          | _ => (false, rest)
          end in
        let '(e, n, _) := read_digits rest' 0%Z 0 in
        match n with
        | O => 0%Z
        | S _ => if neg then (- e)%Z else e
        end
      else 0%Z
  | EmptyString => 0%Z
  end.

(** The binary64 value nearest to [m * 10^e], for [m >= 0], with the sign
    [neg]: the integer is rounded when the exponent is not negative, the
    quotient by the power of ten is rounded otherwise. *)
Definition decimal_to_number (neg : bool) (m e : Z) : number :=
  match m with
  | Zpos _ =>
      if (0 <=? e)%Z then
        SF2Prim (binary_normalize prec emax (if neg then - (m * 10 ^ e) else m * 10 ^ e)%Z 0 false)
      else
        let '(q, e', l) := SFdiv_core_binary prec emax m 0 (10 ^ (- e))%Z 0 in
        SF2Prim (binary_round_aux prec emax neg q e' l)
  | _ => if neg then PrimFloat.neg_zero else PrimFloat.zero
  end.

Definition parseFloat (input : string) : number :=
  let s := skip_white_space input in
  let '(neg, s) :=
    match s with
    | String "-" r => (true, r)
    | String "+" r => (false, r)
    | _ => (false, s)
    end in
  if String.prefix "Infinity" s then (if neg then PrimFloat.neg_infinity else PrimFloat.infinity)
  else
    let '(int_part, int_digits, s1) := read_digits s 0%Z 0 in
    let '(mantissa, frac_digits, s2) :=
      match s1 with
      | String "." r => read_digits r int_part 0
      | _ => (int_part, 0%nat, s1)
      end in
    match (int_digits + frac_digits)%nat with
    | O => PrimFloat.nan
    | S _ => decimal_to_number neg mantissa (read_exponent s2 - Z.of_nat frac_digits)
    end.

End JS.

(** ** Constants ([const.ts] and [@solana/web3.js]) *)

Module TOKENS.
Definition SOL := "SOL".
Definition USDC := "USDC".
Definition BONK := "BONK".
(** [Object.values(TOKENS)] *)
Definition values : list string := [SOL; USDC; BONK].
End TOKENS.

Record TokenInfo := { mint : string; decimals : nat }.

(** [SPL_MAP]: the fungible tokens, by name.  A mint is written in base 58,
    as [toBase58] prints it; [decimals] is a small natural number. *)
Definition SPL_MAP : gmap string TokenInfo :=
  <[ TOKENS.BONK := {| mint := "DezXAZ8z7PnrnRJjz3wXBoRgixCa6xjnB7YaB1pPB263"; decimals := 5 |} ]>
  (<[ TOKENS.USDC := {| mint := "EPjFWdd5AufqSSqeM2qN1xzybapC8G4wEGGkZwyTDt1v"; decimals := 6 |} ]> ∅).

(** [Object.values(SPL_MAP)], in insertion order. *)
Definition SPL_MAP_values : list TokenInfo :=
  omap (fun k => SPL_MAP !! k) [TOKENS.USDC; TOKENS.BONK].

Definition LAMPORTS_PER_SOL : JS.number := 1000000000.

(** [Math.pow(10, decimals)]: the powers of ten up to [10^22] are binary64
    values, so the repeated product is exact for the decimals of a token. *)
Fixpoint Math_pow10 (n : nat) : JS.number :=
  match n with
  | O => 1
  | S k => 10 * Math_pow10 k
  end.

(** ** The game record and the store ([db.ts]) *)

Module Db.

Inductive Status := created | matched | completed.

Definition Status_eqb (a b : Status) : bool :=
  match a, b with
  | created, created | matched, matched | completed, completed => true
  | _, _ => false
  end.

(** [Game], as the store returns a row; [created_at] is set and kept by
    the store and not read by the lifecycle, so it is left out.  A row
    travels as JSON: its [amount] is a number that JSON can carry, or
    [null], and a column without value reads as [null] ([None]). *)
Record Game := {
  id : string;
  game_id : string;
  username : string;
  amount : option JS.number;
  token : string;
  player_address : string;
  recipient_address : string;
  signature : option string;
  is_verified : bool;
  is_public : bool;
  status : Status;
  opponent_username : option string;
  opponent_address : option string;
  opponent_signature : option string
}.

(** [Partial<Game>], for the fields that the handlers update. *)
Record Patch := {
  set_signature : option string;
  set_is_verified : option bool;
  set_status : option Status;
  set_opponent_username : option string;
  set_opponent_address : option string;
  set_opponent_signature : option string
}.

(** A field of the object spread [{...game}] replaces the stored one. *)
Definition overwrite {A} (new : option A) (old : option A) : option A :=
  match new with
  | Some v => Some v
  | None => old
  end.

Definition apply_patch (p : Patch) (g : Game) : Game :=
  {| id := id g;
     game_id := game_id g;
     username := username g;
     amount := amount g;
     token := token g;
     player_address := player_address g;
     recipient_address := recipient_address g;
     signature := overwrite (set_signature p) (signature g);
     is_verified := default (is_verified g) (set_is_verified p);
     is_public := is_public g;
     status := default (status g) (set_status p);
     opponent_username := overwrite (set_opponent_username p) (opponent_username g);
     opponent_address := overwrite (set_opponent_address p) (opponent_address g);
     opponent_signature := overwrite (set_opponent_signature p) (opponent_signature g) |}.

(** The table [games]: its rows, oldest first. *)
Abbreviation Table := (list Game).

(** [.single()]: the row, when the query selects exactly one. *)
Definition single (rows : list Game) : option Game :=
  match rows with
  | [g] => Some g
  | _ => None
  end.

(** [select().eq("game_id", gameId).single()] *)
Definition select_game_id (gameId : string) (t : Table) : option Game :=
  single (filter (fun g => game_id g = gameId) t).

(** [select().eq("id", id).single()] *)
Definition select_id (key : string) (t : Table) : option Game :=
  single (filter (fun g => id g = key) t).

(** The object that [postCreateGame] passes to [addGame]: an
    [Omit<Game, "id">] with the fields that a new game has. *)
Module NewGame.
Record t := {
  game_id : string;
  username : string;
  amount : JS.number;
  token : string;
  player_address : string;
  recipient_address : string;
  is_verified : bool;
  status : Status;
  is_public : bool
}.
End NewGame.

(** [insert({...game})]: the object is sent as JSON, and a row is added
    under the identifier that the store assigns; the columns that the
    object does not name have no value. *)
Definition insert (new_id : string) (g : NewGame.t) (t : Table) : Table :=
  (t ++ [ {| id := new_id;
             game_id := NewGame.game_id g;
             username := NewGame.username g;
             amount := JS.JSON_number (NewGame.amount g);
             token := NewGame.token g;
             player_address := NewGame.player_address g;
             recipient_address := NewGame.recipient_address g;
             signature := None;
             is_verified := NewGame.is_verified g;
             is_public := NewGame.is_public g;
             status := NewGame.status g;
             opponent_username := None;
             opponent_address := None;
             opponent_signature := None |} ])%list.

(** The rows after [update({...game}).eq("game_id", gameId)]: the rows of
    that [game_id] are patched. *)
Definition update (gameId : string) (p : Patch) (t : Table) : Table :=
  (fun g => if decide (game_id g = gameId) then apply_patch p g else g) <$> t.

(** [update({...game}).eq("game_id", gameId).single()]: as for a select,
    [.single()] makes the request an error unless it concerns exactly one
    row, and a request that is an error changes no row. *)
Definition update_single (gameId : string) (p : Patch) (t : Table) : option Table :=
  match single (filter (fun g => game_id g = gameId) t) with
  | Some _ => Some (update gameId p t)
  | None => None
  end.

End Db.

(** ** Thrown values, the world and the environment *)

(** What a [throw] carries: the handlers throw strings, and libraries and the
    runtime throw [Error] objects (a [TypeError] on reading a property of
    [undefined], for instance). *)
Inductive Thrown :=
  | ThrowString (message : string)
  | ThrowError.

(** A computation that returns or throws. *)
Definition Exc (A : Type) : Type := Thrown + A.

(** The first instruction of a parsed transaction, as [validateSignature]
    reads it: [info.lamports] is a JSON number, [info.tokenAmount.amount] a
    string of decimal digits (the integer it denotes is kept here), and a
    field that is absent reads as [undefined]. *)
Record InstructionInfo := {
  destination : option string;
  lamports : option JS.number;
  info_mint : option string;
  tokenAmount : option Z
}.

Inductive Instruction :=
  | ParsedInstruction (program : string) (type : string) (info : InstructionInfo)
  | PartiallyDecodedInstruction.

(** [ParsedTransactionWithMeta]: [meta] is [None] for [null], and carries
    whether [meta.err] is set otherwise. *)
Record ParsedTransactionWithMeta := {
  meta : option bool;
  instructions : list Instruction
}.

(** The two sides of a game: the values of [stat.winner], which the handler
    reads [as "white" | "black"]. *)
Inductive Color := White | Black.

(** The game export of Lichess, as far as [postCompleteGame] reads it.  The
    winner is [None] when the export names none; the user of a side is
    [None] when [stat.players.<side>.user] cannot be read (an anonymous
    side); its [id] may be [undefined]. *)
Record GameStats := {
  stat_status : option string;
  stat_winner : option Color;
  white_user : option (option string);
  black_user : option (option string)
}.

(** [PayoutConfig] without the connection. *)
Record PayoutConfig := {
  payout_amount : JS.number;
  payout_token : string;
  recipientAddress : string
}.

(** The transaction that [sendPayout] builds, paid and signed by the house. *)
Inductive Transaction :=
  | SystemTransfer (toPubkey : string) (lamports : JS.number)
  | TokenTransfer (tokenMint : string) (toOwner : string) (amount : JS.number).

(** The world that outlives a request: the rows of the store, and the
    payouts that the house attempted, oldest first, each with the [success]
    that [sendPayout] returned. *)
Record World := {
  games : Db.Table;
  payouts : list (PayoutConfig * bool)
}.

(** The answers of the external collaborators during one request. *)
Record Env := {
  (** Lichess, through the attestation client: [getProfileDetail] resolves,
      and [getGameStats] resolves to the export of a game ([None]: throws). *)
  getProfileDetail : string -> bool;
  getGameStats : string -> option GameStats;
  (** [new PublicKey(s)] accepts [s]; [toBase58] then prints [s] back. *)
  PublicKey_valid : string -> bool;
  (** [transferSol] or [transferSPLToken] returns the transaction to sign for
      that many base units: the ledger answers the reads made on the way
      ([getLatestBlockhash], [getAccountInfo]) and the instruction encodes. *)
  transfer_builds : JS.number -> bool;
  (** [getSignatureStatus]: [None] when the call throws, else the
      [confirmationStatus] of the value, if there is a value that has one. *)
  getSignatureStatus : string -> option (option string);
  (** [getParsedTransaction]: [None] when the call throws, else the
      transaction or [null]. *)
  getParsedTransaction : string -> option (option ParsedTransactionWithMeta);
  (** [Keypair.fromSecretKey] on the configured house key succeeds. *)
  payer_keypair : bool;
  (** The body of the [try] of [sendPayout] (token accounts derived,
      [sendAndConfirmTransaction]) runs to its end for this transaction,
      submitted after that many earlier payout attempts. *)
  sendAndConfirmTransaction : nat -> Transaction -> bool;
  (** The store answers a select; the identifier it assigns to an inserted
      row ([None]: the insert reports an error); an update succeeds. *)
  store_select : bool;
  store_insert : option string;
  store_update : bool
}.

(** A request: the query string and the fields of the body that are read. *)
Record Request := {
  query : gmap string string;
  body_account : option string;
  body_signature : option string
}.

(** The answers: a JSON payload, or status 400 with an [ActionError]. *)
Inductive Payload :=
  | ActionPostResponse (account : string) (token : string) (amount : JS.number)
  | CompletedAction (label : string).

Inductive Response :=
  | res_json (payload : Payload)
  | res_status_400 (message : string).

(** *** The monad of a handler: state and exceptions

    A thrown value leaves the world as the statements before it made it. *)
Definition Action (A : Type) : Type := World -> Exc A * World.

Global Instance Action_ret : MRet Action := fun A x w => (inr x, w).

Global Instance Action_bind : MBind Action := fun A B f m w =>
  match m w with
  | (inr x, w') => f x w'
  | (inl t, w') => (inl t, w')
  end.

Definition throw {A} (message : string) : Action A :=
  fun w => (inl (ThrowString message), w).

Definition throw_error {A} : Action A :=
  fun w => (inl ThrowError, w).

(** A function that returns or throws, and does not touch the world. *)
Definition lift {A} (e : Exc A) : Action A := fun w => (e, w).

(** The [catch] of every handler: a thrown string is the message of the
    error, anything else is reported as unknown. *)
Definition respond (m : Action Payload) (w : World) : Response * World :=
  match m w with
  | (inr p, w') => (res_json p, w')
  | (inl (ThrowString message), w') => (res_status_400 message, w')
  | (inl ThrowError, w') => (res_status_400 "An unknown error occurred", w')
  end.

(** A double quote, for the messages that quote a field name. *)
Definition dquote : string := String (ascii_of_nat 34) EmptyString.

Definition Invalid_account : string := "Invalid " ++ dquote ++ "account" ++ dquote ++ " provided".
Definition Invalid_signature : string := "Invalid " ++ dquote ++ "signature" ++ dquote ++ " provided".

(** ** Store access ([db.ts]) *)

(** [getGame]: [null] on an error of the store or when the query does not
    select exactly one row. *)
Definition getGame (env : Env) (gameId : string) : Action (option Db.Game) :=
  fun w => (inr (if store_select env then Db.select_game_id gameId (games w) else None), w).

Definition getGameById (env : Env) (key : string) : Action (option Db.Game) :=
  fun w => (inr (if store_select env then Db.select_id key (games w) else None), w).

Definition addGame (env : Env) (game : Db.NewGame.t) : Action unit :=
  fun w =>
    match store_insert env with
    | Some new_id =>
        (inr (), {| games := Db.insert new_id game (games w); payouts := payouts w |})
    | None => (inl (ThrowString "Error creating game, please try again"), w)
    end.

(** [updateGame]: the store reports an error when it fails, and when the
    update does not concern exactly one row. *)
Definition updateGame (env : Env) (gameId : string) (game : Db.Patch) : Action unit :=
  fun w =>
    if store_update env then
      match Db.update_single gameId game (games w) with
      | Some rows => (inr (), {| games := rows; payouts := payouts w |})
      | None => (inl (ThrowString "Error updating game, please try again"), w)
      end
    else (inl (ThrowString "Error updating game, please try again"), w).

(** ** Helpers ([helpers.ts]) *)

Section Lifecycle.

(** [CHARGE_PERCENTAGE], [CAP_AMOUNT] (the fee policy) and [DRAW], [MATE]
    (the two conclusive values of the status of a Lichess game) are
    imported from [const.ts]; [DEFAULT_SOL_ADDRESS] is read there from the
    configuration of the deployment. *)
Variables CHARGE_PERCENTAGE CAP_AMOUNT : JS.number.
Variables DRAW MATE : string.
Variable DEFAULT_SOL_ADDRESS : string.

(** The escrow account, printed in base 58. *)
Definition toPubkey : string := DEFAULT_SOL_ADDRESS.

(** [new PublicKey(body.account)] inside its [try]; [toBase58] of the
    result is the string itself. *)
Definition parse_account (env : Env) (account : option string) : Exc string :=
  match account with
  | Some s => if PublicKey_valid env s then inr s else inl (ThrowString Invalid_account)
  | None => inl (ThrowString Invalid_account)
  end.

(** [validateUsername] *)
Definition validateUsername (env : Env) (q : gmap string string) : Exc string :=
  match JS.truthy (q !! "username") with
  | Some username =>
      if getProfileDetail env username then inr username
      else inl (ThrowString "Ensure you have entered a valid Lichess username")
  | None => inl (ThrowString "Missing input query parameter: username")
  end.

(** [validatedClusterParams] *)
Definition validatedClusterParams (q : gmap string string) : string * string :=
  (default "devnet" (JS.truthy (q !! "clusterurl")),
   default "devnet" (JS.truthy (q !! "cluster"))).

(** The endpoint of the cluster, and [new Connection(rpc)], which throws a
    [TypeError] unless the endpoint is an http(s) URL. *)
Definition new_Connection (clusterurl : string) : Exc unit :=
  if bool_decide (clusterurl ∈ ["devnet"; "testnet"; "mainnet-beta"]) then inr ()
  else if String.prefix "http:" clusterurl || String.prefix "https:" clusterurl then inr ()
  else inl ThrowError.

Record QueryParams := {
  qp_amount : JS.number;
  qp_username : string;
  qp_gameId : string;
  qp_token : string;
  qp_isPublic : bool
}.

(** [validatedQueryParams].  Whatever is thrown inside the [try] around the
    amount is replaced by one message; [parseFloat] itself does not throw. *)
Definition validatedQueryParams (env : Env) (q : gmap string string) : Exc QueryParams :=
  match JS.truthy (q !! "gameId") with
  | None => inl (ThrowString "Missing input query parameter: gameId")
  | Some gameId =>
      let isPublic := bool_decide (is_Some (JS.truthy (q !! "public"))) in
      match JS.truthy (q !! "username") with
      | None => inl (ThrowString "Missing input query parameter: username")
      | Some username =>
          if negb (getProfileDetail env username) then
            inl (ThrowString "Ensure you have entered a valid Lichess username")
          else
            match JS.truthy (q !! "amount") with
            | None => inl (ThrowString "Invalid input query parameter: amount")
            | Some text =>
                let amount := JS.parseFloat text in
                if amount <=? 0 then inl (ThrowString "Invalid input query parameter: amount")
                else
                  match JS.truthy (q !! "token") with
                  | None => inl (ThrowString "Missing input query parameter: token")
                  | Some token =>
                      if bool_decide (token ∈ TOKENS.values) then
                        inr {| qp_amount := amount; qp_username := username;
                               qp_gameId := gameId; qp_token := token;
                               qp_isPublic := isPublic |}
                      else
                        inl (ThrowString
                               "Invalid input query parameter: token. Must be one of SOL, USDC, BONK")
                  end
            end
      end
  end.

(** The value of [x] in an arithmetic expression: NaN for [undefined]. *)
Definition to_number (x : option JS.number) : JS.number :=
  default PrimFloat.nan x.

(** The number that a string of decimal digits denotes, as the division
    of [validateSignature] converts [info.tokenAmount.amount]. *)
Definition digits_to_number (z : Z) : JS.number :=
  SF2Prim (binary_normalize prec emax z 0 false).

Definition mismatch : string := "Transaction details do not match expected values".

(** [validateSignature] *)
Definition validateSignature (game : Db.Game) (parsedTx : ParsedTransactionWithMeta) : Exc unit :=
  if decide (Db.token game = TOKENS.SOL) then
    match head (instructions parsedTx) with
    | None => inl ThrowError
    | Some (ParsedInstruction program type info) =>
        if bool_decide (program = "system") && bool_decide (type = "transfer") then
          let amountInSol := to_number (lamports info) / LAMPORTS_PER_SOL in
          let isValid :=
            bool_decide (destination info = Some (Db.recipient_address game))
            && JS.strict_equal amountInSol (Db.amount game) in
          if isValid then inr () else inl (ThrowString mismatch)
        else inr ()
    | Some PartiallyDecodedInstruction => inr ()
    end
  else
    match head (instructions parsedTx) with
    | None => inl ThrowError
    | Some (ParsedInstruction _ type info) =>
        if bool_decide (type = "transferChecked") then
          match find (fun t => bool_decide (Some (mint t) = info_mint info)) SPL_MAP_values with
          | None => inl (ThrowString "Invalid token")
          | Some tokenInfo =>
              match tokenAmount info with
              | None => inl ThrowError
              | Some units =>
                  let amount := digits_to_number units / Math_pow10 (decimals tokenInfo) in
                  let isValid :=
                    bool_decide (destination info = Some (Db.recipient_address game))
                    && JS.strict_equal amount (Db.amount game) in
                  if isValid then inr () else inl (ThrowString mismatch)
              end
          end
        else inr ()
    | Some PartiallyDecodedInstruction => inr ()
    end.

(** The transaction of a payout, when [sendPayout] gets to build one: for a
    token other than SOL, reading [SPL_MAP[token]] throws inside the [try]
    when the token is not in the map, and so does the check of the
    decimals when they are 0. *)
Definition payout_transaction (config : PayoutConfig) : option Transaction :=
  if decide (payout_token config = "SOL") then
    Some (SystemTransfer (recipientAddress config) (payout_amount config * LAMPORTS_PER_SOL))
  else
    match SPL_MAP !! payout_token config with
    | Some tokenInfo =>
        match decimals tokenInfo with
        | O => None
        | S _ =>
            Some (TokenTransfer (mint tokenInfo) (recipientAddress config)
                    (payout_amount config * Math_pow10 (decimals tokenInfo)))
        end
    | None => None
    end.

(** The [try] of [sendPayout]: whatever is thrown inside it is caught and
    reported by [success]. *)
Definition try_send (env : Env) (attempts : nat) (config : PayoutConfig) : bool :=
  match payout_transaction config with
  | Some transaction => sendAndConfirmTransaction env attempts transaction
  | None => false
  end.

(** [sendPayout]: [new PublicKey(recipientAddress)] is outside the [try]. *)
Definition sendPayout (env : Env) (config : PayoutConfig) : Action bool :=
  fun w =>
    if PublicKey_valid env (recipientAddress config) then
      let success := try_send env (length (payouts w)) config in
      (inr success,
       {| games := games w; payouts := (payouts w ++ [(config, success)])%list |})
    else (inl ThrowError, w).

(** [getFee] *)
Definition getFee (amount : JS.number) : JS.number :=
  let charge := amount * (CHARGE_PERCENTAGE / 100) in
  JS.Math_min charge CAP_AMOUNT.

(** ** The request handlers ([index.ts]) *)

(** [transferSol] and [transferSPLToken]: the transaction that the player
    is asked to sign, a transfer of the amount in base units.  Both throw
    when the ledger does not answer or the instruction cannot be built. *)
Definition transfer_to_escrow (env : Env) (token : string) (amount : JS.number)
    (account : string) : Exc Payload :=
  if decide (token = TOKENS.SOL) then
    let lamports := amount * LAMPORTS_PER_SOL in
    if transfer_builds env lamports then inr (ActionPostResponse account token lamports)
    else inl ThrowError
  else
    match SPL_MAP !! token with
    | Some tokenInfo =>
        let units := amount * Math_pow10 (decimals tokenInfo) in
        if transfer_builds env units then inr (ActionPostResponse account token units)
        else inl ThrowError
    | None => inl ThrowError
    end.

(** The signature of the body, and the check of its status on the ledger,
    shared by the two verify handlers. *)
Definition confirm_signature (env : Env) (req : Request) : Exc string :=
  match JS.truthy (body_signature req) with
  | None => inl (ThrowString Invalid_signature)
  | Some signature =>
      match getSignatureStatus env signature with
      | None => inl (ThrowString "Unable to confirm the provided signature")
      | Some confirmationStatus =>
          match JS.truthy confirmationStatus with
          | Some c =>
              if bool_decide (c ≠ "confirmed") && bool_decide (c ≠ "finalized") then
                inl (ThrowString "Unable to confirm the transaction")
              else inr signature
          | None => inr signature
          end
      end
  end.

(** [getParsedTransaction] and the check that follows it. *)
Definition fetch_transaction (env : Env) (signature : string) : Exc ParsedTransactionWithMeta :=
  match getParsedTransaction env signature with
  | None => inl ThrowError
  | Some (Some parsedTx) =>
      match meta parsedTx with
      | Some false => inr parsedTx
      | _ => inl (ThrowString "Invalid or failed transaction")
      end
  | Some None => inl (ThrowString "Invalid or failed transaction")
  end.

Definition postCreateGame_body (env : Env) (req : Request) : Action Payload :=
  params ← lift (validatedQueryParams env (query req));
  let '(clusterurl, cluster) := validatedClusterParams (query req) in
  account ← lift (parse_account env (body_account req));
  lift (new_Connection clusterurl);;
  addGame env {| Db.NewGame.game_id := qp_gameId params;
                 Db.NewGame.username := qp_username params;
                 Db.NewGame.amount := qp_amount params;
                 Db.NewGame.token := qp_token params;
                 Db.NewGame.player_address := account;
                 Db.NewGame.recipient_address := toPubkey;
                 Db.NewGame.is_verified := false;
                 Db.NewGame.status := Db.created;
                 Db.NewGame.is_public := qp_isPublic params |};;
  lift (transfer_to_escrow env (qp_token params) (qp_amount params) account).

Definition postCreateGame (env : Env) (req : Request) : World -> Response * World :=
  respond (postCreateGame_body env req).

Definition postVerifyCreateGame_body (env : Env) (req : Request) : Action Payload :=
  match JS.truthy (query req !! "gameId") with
  | None => throw "Missing input query parameter: gameId"
  | Some gameId =>
      let '(clusterurl, cluster) := validatedClusterParams (query req) in
      account ← lift (parse_account env (body_account req));
      lift (new_Connection clusterurl);;
      signature ← lift (confirm_signature env req);
      found ← getGame env gameId;
      match found with
      | None => throw "Game not found"
      | Some game =>
          parsedTx ← lift (fetch_transaction env signature);
          lift (validateSignature game parsedTx);;
          updateGame env gameId
            {| Db.set_signature := Some signature; Db.set_is_verified := Some true;
               Db.set_status := None; Db.set_opponent_username := None;
               Db.set_opponent_address := None; Db.set_opponent_signature := None |};;
          mret (CompletedAction "Get ready to duel!")
      end
  end.

Definition postVerifyCreateGame (env : Env) (req : Request) : World -> Response * World :=
  respond (postVerifyCreateGame_body env req).

(** [postJoinGame]; [postPublicGames] has the same body. *)
Definition postJoinGame_body (env : Env) (req : Request) : Action Payload :=
  username ← lift (validateUsername env (query req));
  match JS.truthy (query req !! "gameUid") with
  | None => throw "Missing input query parameter: gameUid"
  | Some gameUid =>
      found ← getGameById env gameUid;
      match found with
      | None => throw "Game not found"
      | Some game =>
          if negb (Db.is_verified game) then throw "Game is not verified"
          else if negb (Db.Status_eqb (Db.status game) Db.created) then
            throw "Game is not available to join"
          else if decide (Db.username game = username) then
            throw "You cannot join your own game"
          else
            let '(clusterurl, cluster) := validatedClusterParams (query req) in
            account ← lift (parse_account env (body_account req));
            if decide (Db.player_address game = account) then
              throw "You cannot join your own game"
            else
              lift (new_Connection clusterurl);;
              lift (transfer_to_escrow env (Db.token game) (JS.ToNumber (Db.amount game))
                      account)
      end
  end.

Definition postJoinGame (env : Env) (req : Request) : World -> Response * World :=
  respond (postJoinGame_body env req).

Definition postPublicGames (env : Env) (req : Request) : World -> Response * World :=
  respond (postJoinGame_body env req).

Definition postVerifyJoinGame_body (env : Env) (req : Request) : Action Payload :=
  match JS.truthy (query req !! "gameUid") with
  | None => throw "Game UID is required"
  | Some gameUid =>
      found ← getGameById env gameUid;
      match found with
      | None => throw "Game not found"
      | Some game =>
          if negb (Db.is_verified game) then throw "Game is not verified"
          else if negb (Db.Status_eqb (Db.status game) Db.created) then
            throw "Game is not available to join"
          else
            username ← lift (validateUsername env (query req));
            if decide (Db.username game = username) then
              throw "You cannot join your own game"
            else
              let '(clusterurl, cluster) := validatedClusterParams (query req) in
              account ← lift (parse_account env (body_account req));
              if decide (Db.player_address game = account) then
                throw "You cannot join your own game"
              else
                lift (new_Connection clusterurl);;
                signature ← lift (confirm_signature env req);
                parsedTx ← lift (fetch_transaction env signature);
                lift (validateSignature game parsedTx);;
                updateGame env (Db.game_id game)
                  {| Db.set_signature := None; Db.set_is_verified := None;
                     Db.set_status := None;
                     Db.set_opponent_username := Some username;
                     Db.set_opponent_address := Some account;
                     Db.set_opponent_signature := Some signature |};;
                mret (CompletedAction "Start the duel!")
      end
  end.

Definition postVerifyJoinGame (env : Env) (req : Request) : World -> Response * World :=
  respond (postVerifyJoinGame_body env req).

(** The identifier of the winning side: [players[stat.winner]], where
    reading the user of a side that has none throws a [TypeError]. *)
Definition winner_of (stat : GameStats) : Exc (option string) :=
  match white_user stat, black_user stat with
  | Some white, Some black =>
      inr (match stat_winner stat with
           | Some White => white
           | Some Black => black
           | None => None
           end)
  | _, _ => inl ThrowError
  end.

(** The own properties of the object [addresses]: the address of each side
    under its username; the second key overwrites the first when the two
    are equal.  A game without opponent has the key of [null] there, and
    [null] under it. *)
Definition addresses_of (game : Db.Game) : gmap string (option string) :=
  <[ JS.nullable_key (Db.opponent_username game) := Db.opponent_address game ]>
  (<[ Db.username game := Some (Db.player_address game) ]> ∅).

(** What [addresses[winner]] is: an address, a value that is falsy (no such
    property, [null] or the empty string), or a member of
    [Object.prototype], found when the object has no own property of that
    name. *)
Inductive WinnerAddress :=
  | address_found (address : string)
  | address_falsy
  | address_inherited.

Definition winnerAddress_of (game : Db.Game) (winner : option string) : WinnerAddress :=
  match addresses_of game !! JS.property_key winner with
  | Some value =>
      match JS.truthy value with
      | Some address => address_found address
      | None => address_falsy
      end
  | None =>
      if bool_decide (JS.property_key winner ∈ JS.Object_prototype_keys) then address_inherited
      else address_falsy
  end.

Definition completed_patch : Db.Patch :=
  {| Db.set_signature := None; Db.set_is_verified := None;
     Db.set_status := Some Db.completed; Db.set_opponent_username := None;
     Db.set_opponent_address := None; Db.set_opponent_signature := None |}.

Definition postCompleteGame_body (env : Env) (req : Request) : Action Payload :=
  match JS.truthy (query req !! "gameUid") with
  | None => throw "Game UID is required"
  | Some gameUid =>
      found ← getGameById env gameUid;
      match found with
      | None => throw "Game not found"
      | Some game =>
          if negb (Db.is_verified game) then throw "Game is not verified"
          else if Db.Status_eqb (Db.status game) Db.completed then
            throw "Game is already completed"
          else
            let '(clusterurl, cluster) := validatedClusterParams (query req) in
            account ← lift (parse_account env (body_account req));
            lift (new_Connection clusterurl);;
            match getGameStats env (Db.game_id game) with
            | None => throw "Unable to get game stats"
            | Some stat =>
                let status := stat_status stat in
                if bool_decide (status ≠ Some DRAW) && bool_decide (status ≠ Some MATE) then
                  throw "Game is not over"
                else if negb (payer_keypair env) then throw_error
                else
                  let amount := JS.ToNumber (Db.amount game) in
                  let fee := getFee amount in
                  (if decide (status = Some DRAW) then
                     sendPayout env {| payout_amount := amount - fee;
                                       payout_token := Db.token game;
                                       recipientAddress := Db.player_address game |};;
                     match JS.truthy (Db.opponent_address game) with
                     | Some opponent_address =>
                         sendPayout env {| payout_amount := amount - fee;
                                           payout_token := Db.token game;
                                           recipientAddress := opponent_address |};;
                         mret ()
                     | None => mret ()
                     end
                   else
                     winner ← lift (winner_of stat);
                     match winnerAddress_of game winner with
                     | address_falsy =>
                         throw ("Address not found for winner: " ++ JS.property_key winner)
                     | address_inherited =>
                         (* [sendPayout]: [new PublicKey] throws on a value that is
                            neither a string nor a key. *)
                         throw_error
                     | address_found winnerAddress =>
                         sendPayout env {| payout_amount := amount * 2 - fee;
                                           payout_token := Db.token game;
                                           recipientAddress := winnerAddress |};;
                         mret ()
                     end);;
                  updateGame env (Db.game_id game) completed_patch;;
                  mret (CompletedAction "Game completed")
            end
      end
  end.

Definition postCompleteGame (env : Env) (req : Request) : World -> Response * World :=
  respond (postCompleteGame_body env req).

End Lifecycle.

(** ** Vocabulary of the properties *)

(** The request names a game that is ready for its payout: the game is
    found, verified and not completed, the body and the cluster are accepted,
    Lichess reports [stat] for the game, and the key of the house loads. *)
Definition complete_ready (env : Env) (req : Request) (w : World)
    (game : Db.Game) (stat : GameStats) : Prop :=
  (exists gameUid,
      JS.truthy (query req !! "gameUid") = Some gameUid
      /\ Db.select_id gameUid (games w) = Some game)
  /\ store_select env = true
  /\ Db.is_verified game = true
  /\ Db.status game <> Db.completed
  /\ (exists account, parse_account env (body_account req) = inr account)
  /\ new_Connection (validatedClusterParams (query req)).1 = inr ()
  /\ getGameStats env (Db.game_id game) = Some stat
  /\ payer_keypair env = true.

(** The fields that [postVerifyJoinGame] writes. *)
Definition join_patch (username account signature : string) : Db.Patch :=
  {| Db.set_signature := None; Db.set_is_verified := None; Db.set_status := None;
     Db.set_opponent_username := Some username;
     Db.set_opponent_address := Some account;
     Db.set_opponent_signature := Some signature |}.

(** How an amount of a token is sent to an address: [transfer] is the
    system transfer of the amount in lamports for SOL, and the transfer of
    the amount in base units of its mint for a token of [SPL_MAP]. *)
Definition sends (token : string) (transfer : string -> JS.number -> Transaction) : Prop :=
  (token = TOKENS.SOL
   /\ transfer = fun address amount => SystemTransfer address (amount * LAMPORTS_PER_SOL))
  \/ exists tokenInfo,
      token <> TOKENS.SOL
      /\ SPL_MAP !! token = Some tokenInfo
      /\ transfer
         = fun address amount =>
             TokenTransfer (mint tokenInfo) address (amount * Math_pow10 (decimals tokenInfo)).

(** The message of a self-match. *)
Definition own_game : string := "You cannot join your own game".

(** The opponent of a row is not its creator. *)
Definition no_self_match_row (g : Db.Game) : Prop :=
  Db.opponent_username g <> Some (Db.username g)
  /\ Db.opponent_address g <> Some (Db.player_address g).

(** The environment with another ledger. *)
Definition with_ledger (confirms : nat -> Transaction -> bool) (env : Env) : Env :=
  {| getProfileDetail := getProfileDetail env;
     getGameStats := getGameStats env;
     PublicKey_valid := PublicKey_valid env;
     transfer_builds := transfer_builds env;
     getSignatureStatus := getSignatureStatus env;
     getParsedTransaction := getParsedTransaction env;
     payer_keypair := payer_keypair env;
     sendAndConfirmTransaction := confirms;
     store_select := store_select env;
     store_insert := store_insert env;
     store_update := store_update env |}.

(** The fee as the specification writes it, the product of the wager by
    the rate divided by 100, read in the arithmetic of the code. *)
Definition spec_fee (CHARGE_PERCENTAGE CAP_AMOUNT w : JS.number) : JS.number :=
  JS.Math_min (w * CHARGE_PERCENTAGE / 100) CAP_AMOUNT.

(** Not below zero, read on the specification of a float: NaN and the two
    zeros qualify. *)
Definition sf_not_negative (x : spec_float) : Prop :=
  match x with
  | S754_nan | S754_zero _ => True
  | S754_infinity s | S754_finite s _ _ => s = false
  end.

(** ** A sample deployment

    A fee policy, three players and a game in each state of its life, for the
    examples that evaluate the handlers. *)

Module Sample.

Definition CHARGE_PERCENTAGE : JS.number := 5.
Definition CAP_AMOUNT : JS.number := 1.
Definition DRAW := "draw".
Definition MATE := "mate".
Definition escrow := "9WzDXwBbmkg8ZTbNMqUxvQRAyrZzDsGYdLVL9zYtAWWM".

Definition alice_address := "4Nd1mBQtrMJVYVfKf2PJy9NZUZdTAsp7D4xWLs4gDB4T".
Definition bob_address := "7xKXtg2CW87d97TXJSDpbD5jBkheTqA83TZRuJosgAsU".
Definition carol_address := "5oNDL3swdJJF1g9DzJiZ4ynHXgszjAEpUkxVYejchzrY".

(** A wager of 1 SOL that alice created on the Lichess game LRy93nnW. *)
Definition game_created : Db.Game :=
  {| Db.id := "id-1";
     Db.game_id := "LRy93nnW";
     Db.username := "alice";
     Db.amount := Some 1;
     Db.token := "SOL";
     Db.player_address := alice_address;
     Db.recipient_address := escrow;
     Db.signature := None;
     Db.is_verified := false;
     Db.is_public := true;
     Db.status := Db.created;
     Db.opponent_username := None;
     Db.opponent_address := None;
     Db.opponent_signature := None |}.

(** The same game once the deposit of alice is verified. *)
Definition game_verified : Db.Game :=
  Db.apply_patch
    {| Db.set_signature := Some "sig-alice"; Db.set_is_verified := Some true;
       Db.set_status := None; Db.set_opponent_username := None;
       Db.set_opponent_address := None; Db.set_opponent_signature := None |}
    game_created.

(** The same game with bob recorded as the opponent, as [postVerifyJoinGame]
    leaves it. *)
Definition game_joined : Db.Game :=
  Db.apply_patch
    {| Db.set_signature := None; Db.set_is_verified := None;
       Db.set_status := None; Db.set_opponent_username := Some "bob";
       Db.set_opponent_address := Some bob_address;
       Db.set_opponent_signature := Some "sig-bob" |}
    game_verified.

Definition world_of (g : Db.Game) : World := {| games := [g]; payouts := [] |}.

(** A deposit of 1 SOL into the escrow account. *)
Definition deposit_info : InstructionInfo :=
  {| destination := Some escrow; lamports := Some 1000000000;
     info_mint := None; tokenAmount := None |}.

Definition transaction_of (first : Instruction) : ParsedTransactionWithMeta :=
  {| meta := Some false; instructions := [first] |}.

Definition draw_stats : GameStats :=
  {| stat_status := Some "draw"; stat_winner := None;
     white_user := Some (Some "alice"); black_user := Some (Some "bob") |}.


(** Every service answers, and a transfer builds unless its amount is NaN;
    the ledger confirms a payout or not, the finalized transaction of any
    signature is [parsedTx], and Lichess reports [stat]. *)
Definition env (confirms : bool) (parsedTx : ParsedTransactionWithMeta)
    (stat : GameStats) : Env :=
  {| getProfileDetail := fun _ => true;
     getGameStats := fun _ => Some stat;
     PublicKey_valid := fun s => bool_decide (32 <= String.length s <= 44)%nat;
     transfer_builds := fun units => negb (is_nan units);
     getSignatureStatus := fun _ => Some (Some "finalized");
     getParsedTransaction := fun _ => Some (Some parsedTx);
     payer_keypair := true;
     sendAndConfirmTransaction := fun _ _ => confirms;
     store_select := true;
     store_insert := Some "id-1";
     store_update := true |}.

Definition request (params : list (string * string)) (account : string)
    (signature : option string) : Request :=
  {| query := list_to_map params; body_account := Some account;
     body_signature := signature |}.

Definition create_request (amount : string) : Request :=
  request [("gameId", "LRy93nnW"); ("username", "alice"); ("amount", amount);
           ("token", "SOL")] alice_address None.

Definition join_request (username account signature : string) : Request :=
  request [("gameUid", "id-1"); ("username", username)] account (Some signature).

Definition complete_request : Request :=
  request [("gameUid", "id-1")] bob_address None.

(** The verified game, with a wager of 1 USDC instead. *)
Definition usdc_game : Db.Game :=
  {| Db.id := "id-1";
     Db.game_id := "LRy93nnW";
     Db.username := "alice";
     Db.amount := Some 1;
     Db.token := "USDC";
     Db.player_address := alice_address;
     Db.recipient_address := escrow;
     Db.signature := Some "sig-alice";
     Db.is_verified := true;
     Db.is_public := true;
     Db.status := Db.created;
     Db.opponent_username := None;
     Db.opponent_address := None;
     Db.opponent_signature := None |}.

(** The joined game after carol joined it as well. *)
Definition game_rejoined : Db.Game :=
  Db.apply_patch (join_patch "carol" carol_address "sig-carol") game_joined.

(** A checked transfer of 100000 base units of BONK, which is 1 BONK, into
    the escrow account. *)
Definition bonk_deposit : Instruction :=
  ParsedInstruction "spl-token" "transferChecked"
    {| destination := Some escrow; lamports := None;
       info_mint := Some "DezXAZ8z7PnrnRJjz3wXBoRgixCa6xjnB7YaB1pPB263";
       tokenAmount := Some 100000%Z |}.

(** A checked transfer of 3 base units of BONK to carol. *)
Definition bonk_to_carol : Instruction :=
  ParsedInstruction "spl-token" "transferChecked"
    {| destination := Some carol_address; lamports := None;
       info_mint := Some "DezXAZ8z7PnrnRJjz3wXBoRgixCa6xjnB7YaB1pPB263";
       tokenAmount := Some 3%Z |}.

(** A transfer of 3 base units of a token to an account of carol, of the
    kind that [createTransferInstruction] builds. *)
Definition token_transfer_to_carol : Instruction :=
  ParsedInstruction "spl-token" "transfer"
    {| destination := Some carol_address; lamports := None;
       info_mint := None; tokenAmount := None |}.

(** A deposit of 1 SOL into the escrow account, as a system transfer. *)
Definition sol_deposit : Instruction := ParsedInstruction "system" "transfer" deposit_info.

(** The services on a day when the ledger confirms and the game is drawn,
    or won by a side. *)
Definition services : Env := env true (transaction_of sol_deposit) draw_stats.


(** The same day, with a ledger that confirms nothing. *)
Definition ledger_down : Env := env false (transaction_of sol_deposit) draw_stats.

End Sample.

(** ** The listing of the open games ([db.ts], [index.ts]) *)

(** The filter of [getUnMatchedGames]: status created, public, verified. *)
Definition unmatched (g : Db.Game) : bool :=
  Db.Status_eqb (Db.status g) Db.created && Db.is_public g && Db.is_verified g.

(** [getUnMatchedGames]: the rows that pass the filter, by [created_at]
    ascending, which is the order of the table; none when the store reports
    an error. *)
Definition getUnMatchedGames (env : Env) : Action (list Db.Game) :=
  fun w => (inr (if store_select env then List.filter unmatched (games w) else []), w).

(** The action that [getPublicGames] answers with, as far as a client uses
    it: the names of the query parameters of its link, and the values of the
    options of its select, one per open game. *)
Record PublicGamesAction := {
  href_query : list string;
  gameUid_options : list string
}.

(** [getPublicGames] *)
Definition getPublicGames (env : Env) (req : Request) : Action PublicGamesAction :=
  games ← getUnMatchedGames env;
  mret {| href_query := ["clusterurl"; "cluster"; "username"; "gameId"];
          gameUid_options := Db.id <$> games |}.

(** ** The stake route ([app/api/actions/stake/route.ts]) *)

Module Stake.

Record QueryParams := {
  amount : JS.number;
  username : string;
  gameId : string;
  token : string
}.

(** [validatedQueryParams] of the route: [searchParams.get] reads the first
    value of a parameter, or [null]. *)
Definition validatedQueryParams (q : gmap string string) : Exc QueryParams :=
  match JS.truthy (q !! "gameId") with
  | None => inl (ThrowString "Missing input query parameter: gameId")
  | Some gameId =>
      match JS.truthy (q !! "username") with
      | None => inl (ThrowString "Missing input query parameter: username")
      | Some username =>
          match JS.truthy (q !! "amount") with
          | None => inl (ThrowString "Invalid input query parameter: amount")
          | Some text =>
              let amount := JS.parseFloat text in
              if amount <=? 0 then inl (ThrowString "Invalid input query parameter: amount")
              else
                match JS.truthy (q !! "token") with
                | None => inl (ThrowString "Missing input query parameter: token")
                | Some token =>
                    if bool_decide (token ∈ TOKENS.values) then
                      inr {| amount := amount; username := username;
                             gameId := gameId; token := token |}
                    else
                      inl (ThrowString
                             "Invalid input query parameter: token. Must be one of SOL, USDC, BONK")
                end
          end
      end
  end.

End Stake.

(** ** Sequences of requests *)

Section Steps.

Variables CHARGE_PERCENTAGE CAP_AMOUNT : JS.number.
Variables DRAW MATE : string.
Variable DEFAULT_SOL_ADDRESS : string.

(** One request to one of the POST routes, whatever the services answer. *)
Inductive step (w : World) : World -> Prop :=
  | step_createGame env req :
      step w (postCreateGame DEFAULT_SOL_ADDRESS env req w).2
  | step_verifyCreateGame env req :
      step w (postVerifyCreateGame env req w).2
  | step_joinGame env req :
      step w (postJoinGame env req w).2
  | step_publicGames env req :
      step w (postPublicGames env req w).2
  | step_verifyJoinGame env req :
      step w (postVerifyJoinGame env req w).2
  | step_completeGame env req :
      step w (postCompleteGame CHARGE_PERCENTAGE CAP_AMOUNT DRAW MATE env req w).2.

End Steps.

(** What may become of a row: the fields of the creation stay, and the
    flags only move forward. *)
Definition row_advances (g g' : Db.Game) : Prop :=
  Db.id g' = Db.id g
  /\ Db.game_id g' = Db.game_id g
  /\ Db.username g' = Db.username g
  /\ Db.amount g' = Db.amount g
  /\ Db.token g' = Db.token g
  /\ Db.player_address g' = Db.player_address g
  /\ Db.recipient_address g' = Db.recipient_address g
  /\ Db.is_public g' = Db.is_public g
  /\ (Db.is_verified g' = Db.is_verified g \/ Db.is_verified g' = true)
  /\ (Db.status g' = Db.status g \/ Db.status g' = Db.completed)
  /\ (is_Some (Db.signature g) -> is_Some (Db.signature g'))
  /\ (is_Some (Db.opponent_username g) -> is_Some (Db.opponent_username g'))
  /\ (is_Some (Db.opponent_address g) -> is_Some (Db.opponent_address g'))
  /\ (is_Some (Db.opponent_signature g) -> is_Some (Db.opponent_signature g')).

(** Every row is still at its place, advanced, and the payouts of before are
    the first payouts of after. *)
Definition world_advances (w w' : World) : Prop :=
  (forall (i : nat) g, games w !! i = Some g ->
     exists g', games w' !! i = Some g' /\ row_advances g g')
  /\ payouts w `prefix_of` payouts w'.

(** A patch that only moves the flags forward. *)
Definition forward_patch (p : Db.Patch) : Prop :=
  (Db.set_is_verified p = None \/ Db.set_is_verified p = Some true)
  /\ (Db.set_status p = None \/ Db.set_status p = Some Db.completed).

(** ** The form of a new game ([index.ts]) *)

(** [Object.entries(TOKENS)] *)
Definition TOKENS_entries : list (string * string) :=
  [("SOL", TOKENS.SOL); ("USDC", TOKENS.USDC); ("BONK", TOKENS.BONK)].

(** The action that [getCreateGame] answers with, as far as a client uses
    it: the names of the query parameters of its link, and the values that
    its two radio inputs offer. *)
Record CreateGameAction := {
  create_href_query : list string;
  public_options : list string;
  token_options : list string
}.

(** [getCreateGame] *)
Definition getCreateGame (req : Request) : CreateGameAction :=
  {| create_href_query :=
       ["clusterurl"; "cluster"; "amount"; "gameId"; "username"; "token"; "public"];
     public_options := ["true"; "false"];
     token_options := fst <$> TOKENS_entries |}.

(** The fields that [postVerifyCreateGame] writes. *)
Definition verify_patch (signature : string) : Db.Patch :=
  {| Db.set_signature := Some signature; Db.set_is_verified := Some true;
     Db.set_status := None; Db.set_opponent_username := None;
     Db.set_opponent_address := None; Db.set_opponent_signature := None |}.

(** The environment with a store that accepts updates or not. *)
Definition with_store_update (accepts : bool) (env : Env) : Env :=
  {| getProfileDetail := getProfileDetail env;
     getGameStats := getGameStats env;
     PublicKey_valid := PublicKey_valid env;
     transfer_builds := transfer_builds env;
     getSignatureStatus := getSignatureStatus env;
     getParsedTransaction := getParsedTransaction env;
     payer_keypair := payer_keypair env;
     sendAndConfirmTransaction := sendAndConfirmTransaction env;
     store_select := store_select env;
     store_insert := store_insert env;
     store_update := accepts |}.

(** The row that [postCreateGame] inserts for accepted parameters, under
    the identifier that the store assigns. *)
Definition created_row (DEFAULT_SOL_ADDRESS : string) (new_id : string)
    (params : QueryParams) (account : string) : Db.Game :=
  {| Db.id := new_id;
     Db.game_id := qp_gameId params;
     Db.username := qp_username params;
     Db.amount := JS.JSON_number (qp_amount params);
     Db.token := qp_token params;
     Db.player_address := account;
     Db.recipient_address := DEFAULT_SOL_ADDRESS;
     Db.signature := None;
     Db.is_verified := false;
     Db.is_public := qp_isPublic params;
     Db.status := Db.created;
     Db.opponent_username := None;
     Db.opponent_address := None;
     Db.opponent_signature := None |}.

(** The refunds of a draw, in the order in which they are sent. *)
Definition draw_refunds (CHARGE_PERCENTAGE CAP_AMOUNT : JS.number) (game : Db.Game) :
    list PayoutConfig :=
  let amount := JS.ToNumber (Db.amount game) in
  let refund address :=
    {| payout_amount := amount - getFee CHARGE_PERCENTAGE CAP_AMOUNT amount;
       payout_token := Db.token game;
       recipientAddress := address |} in
  refund (Db.player_address game)
  :: match JS.truthy (Db.opponent_address game) with
     | Some opponent_address => [refund opponent_address]
     | None => []
     end.

(** ** More of the sample deployment *)

Module Scenario.

(** The request that verifies the deposit of alice. *)
Definition verify_create_request : Request :=
  Sample.request [("gameId", "LRy93nnW")] Sample.alice_address (Some "sig-alice").

(** The form of a new game, filled in with the answer No to the question
    whether the game is public. *)
Definition private_create_request : Request :=
  Sample.request [("amount", "1"); ("gameId", "LRy93nnW"); ("username", "alice");
                  ("token", "SOL"); ("public", "false")] Sample.alice_address None.

(** The link of the listing, filled in by bob who chose the game id-1. *)
Definition listing_link_request : Request :=
  Sample.request [("clusterurl", "devnet"); ("cluster", "devnet"); ("username", "bob");
                  ("gameId", "id-1")] Sample.bob_address None.

(** A second row for the same Lichess game, as a repeated create leaves
    it. *)
Definition game_created_again : Db.Game :=
  {| Db.id := "id-2";
     Db.game_id := "LRy93nnW";
     Db.username := "alice";
     Db.amount := Some 1;
     Db.token := "SOL";
     Db.player_address := Sample.alice_address;
     Db.recipient_address := Sample.escrow;
     Db.signature := None;
     Db.is_verified := false;
     Db.is_public := true;
     Db.status := Db.created;
     Db.opponent_username := None;
     Db.opponent_address := None;
     Db.opponent_signature := None |}.

(** The services when the store assigns the identifier id-2 to the next
    row. *)
Definition services_of_second_row : Env :=
  {| getProfileDetail := getProfileDetail Sample.services;
     getGameStats := getGameStats Sample.services;
     PublicKey_valid := PublicKey_valid Sample.services;
     transfer_builds := transfer_builds Sample.services;
     getSignatureStatus := getSignatureStatus Sample.services;
     getParsedTransaction := getParsedTransaction Sample.services;
     payer_keypair := payer_keypair Sample.services;
     sendAndConfirmTransaction := sendAndConfirmTransaction Sample.services;
     store_select := store_select Sample.services;
     store_insert := Some "id-2";
     store_update := store_update Sample.services |}.

(** The services on a day when the store refuses updates. *)
Definition store_refuses : Env := with_store_update false Sample.services.

End Scenario.

(** * Properties *)

Set Warnings "-inexact-float".

(** Unfolds the monad of the handlers and the accesses to the store. *)
Ltac unfold_action :=
  unfold respond, mbind, Action_bind, mret, Action_ret, lift, throw, throw_error,
    getGameById, getGame, updateGame, addGame, sendPayout in *.

(** Follows every branch of a handler. *)
Ltac follow_branches := repeat (case_match; simplify_eq; simpl in * ).

(** ** [parseFloat] and the fee on examples *)

Example parseFloat_decimal : JS.parseFloat "1.5" = 1.5.
Proof. vm_compute. reflexivity. Qed.

Example parseFloat_prefix : JS.parseFloat "  -12.5e-1abc" = -1.25.
Proof. vm_compute. reflexivity. Qed.

Example parseFloat_rounds :
  JS.parseFloat "0.1" = 0.1 /\ JS.parseFloat "9007199254740993" = 9007199254740992.
Proof. split; vm_compute; reflexivity. Qed.

(** A no-break space (U+00A0, the bytes 194 and 160) and a byte order mark
    (U+FEFF, the bytes 239, 187 and 191) are white space; a zero width
    space (U+200B) is not. *)
Example parseFloat_white_space :
  JS.parseFloat (String "194" (String "160" "-1")) = -1
  /\ JS.parseFloat (String "239" (String "187" (String "191" " 2.5"))) = 2.5
  /\ is_nan (JS.parseFloat (String "226" (String "128" (String "139" "2.5")))) = true.
Proof. repeat split; vm_compute; reflexivity. Qed.

Example parseFloat_not_a_number : is_nan (JS.parseFloat "abc") = true.
Proof. vm_compute. reflexivity. Qed.

(** The scenarios of the specification: a draw on a wager of 2 at 5 % capped
    at 1, and a win on a wager of 3 at 10 % capped at 0.2. *)
Example fee_of_draw_scenario : getFee 5 1 2 = 0.1 /\ 2 - getFee 5 1 2 = 1.9.
Proof. split; vm_compute; reflexivity. Qed.

Example fee_of_win_scenario : getFee 10 0.2 3 = 0.2 /\ 3 * 2 - getFee 10 0.2 3 = 5.8.
Proof. split; vm_compute; reflexivity. Qed.

(** ** Comparisons and signs of binary64 numbers *)

Section FloatFacts.

Lemma SFcompare_antisym x y :
  SFcompare y x = option_map CompOpp (SFcompare x y).
Proof.
  destruct x as [sx|sx| |sx mx ex], y as [sy|sy| |sy my ey]; simpl;
    try destruct sx; try destruct sy; try reflexivity.
  - rewrite (Z.compare_antisym ex ey).
    destruct (ex ?= ey)%Z; simpl; try reflexivity.
    now rewrite (Pos.compare_cont_antisym mx my Eq).
  - rewrite (Z.compare_antisym ex ey).
    destruct (ex ?= ey)%Z; simpl; try reflexivity.
    now rewrite (Pos.compare_cont_antisym mx my Eq).
Qed.

Lemma ltb_asym (a b : float) : (a <? b) = true -> (b <? a) = false.
Proof.
  rewrite !FloatAxioms.ltb_spec. unfold SFltb.
  rewrite (SFcompare_antisym (Prim2SF a) (Prim2SF b)).
  destruct (SFcompare (Prim2SF a) (Prim2SF b)) as [[]|]; simpl; congruence.
Qed.

Lemma ltb_irrefl (a : float) : (a <? a) = false.
Proof.
  destruct (a <? a) eqn:H; [|reflexivity].
  pose proof (ltb_asym a a H). congruence.
Qed.

Lemma ltb_nan_r (a : float) : (a <? PrimFloat.nan) = false.
Proof. rewrite FloatAxioms.ltb_spec. now destruct (Prim2SF a). Qed.

Lemma ltb_nan_l (a : float) : (PrimFloat.nan <? a) = false.
Proof. rewrite FloatAxioms.ltb_spec. now destruct (Prim2SF a). Qed.

Lemma is_nan_spec (a : float) : is_nan a = true <-> Prim2SF a = S754_nan.
Proof.
  unfold is_nan. rewrite FloatAxioms.eqb_spec. unfold SFeqb.
  destruct (Prim2SF a) as [s|s| |s m e]; simpl; try destruct s; simpl;
    try (split; congruence).
  - rewrite Z.compare_refl, Pos.compare_cont_refl. simpl. split; congruence.
  - rewrite Z.compare_refl, Pos.compare_cont_refl. simpl. split; congruence.
Qed.

(** Of two numbers, one is below or equal to the other as soon as the other
    is not below it. *)
Lemma not_ltb_leb (a b : float) :
  is_nan a = false -> is_nan b = false -> (b <? a) = false -> (a <=? b) = true.
Proof.
  intros Ha Hb. rewrite FloatAxioms.ltb_spec, FloatAxioms.leb_spec. unfold SFltb, SFleb.
  rewrite (SFcompare_antisym (Prim2SF a) (Prim2SF b)).
  assert (Prim2SF a <> S754_nan) by (intros E; apply is_nan_spec in E; congruence).
  assert (Prim2SF b <> S754_nan) by (intros E; apply is_nan_spec in E; congruence).
  destruct (SFcompare (Prim2SF a) (Prim2SF b)) as [[]|] eqn:E; simpl; try congruence.
  destruct (Prim2SF a), (Prim2SF b); simpl in E; congruence.
Qed.

Lemma leb_refl (a : float) : is_nan a = false -> (a <=? a) = true.
Proof. intros H. apply not_ltb_leb; auto using ltb_irrefl. Qed.

Lemma leb_zero_not_negative (x : float) :
  (0 <=? x) = true -> sf_not_negative (Prim2SF x) /\ is_nan x = false.
Proof.
  intros H. split.
  - rewrite FloatAxioms.leb_spec in H. change (Prim2SF 0) with (S754_zero false) in H.
    destruct (Prim2SF x) as [s|s| |s m e]; simpl in *; auto; now destruct s.
  - destruct (is_nan x) eqn:E; [|reflexivity].
    apply is_nan_spec in E. rewrite FloatAxioms.leb_spec, E in H. discriminate.
Qed.

Lemma not_negative_ltb_zero (x : float) :
  sf_not_negative (Prim2SF x) -> (x <? 0) = false.
Proof.
  intros H. rewrite FloatAxioms.ltb_spec. change (Prim2SF 0) with (S754_zero false).
  destruct (Prim2SF x) as [s|s| |s m e]; simpl in *; subst; reflexivity.
Qed.

Lemma binary_round_aux_not_negative m e l :
  sf_not_negative (binary_round_aux prec emax false m e l).
Proof.
  unfold binary_round_aux.
  destruct (shr_fexp prec emax m e l) as [mrs e'].
  destruct (shr_fexp prec emax _ e' loc_Exact) as [mrs' e''].
  destruct (shr_m mrs'); simpl; auto.
  destruct (e'' <=? emax - prec)%Z; simpl; auto.
Qed.

Lemma SFmul_not_negative x y :
  sf_not_negative x -> sf_not_negative y -> sf_not_negative (SF64mul x y).
Proof.
  destruct x as [sx|sx| |sx mx ex], y as [sy|sy| |sy my ey]; simpl; intros; subst; auto.
  apply binary_round_aux_not_negative.
Qed.

(** A quotient by a positive finite number keeps the sign. *)
Lemma SFdiv_not_negative x my ey :
  sf_not_negative x -> sf_not_negative (SF64div x (S754_finite false my ey)).
Proof.
  destruct x as [sx|sx| |sx mx ex]; simpl; intros; subst; auto.
  destruct (SFdiv_core_binary prec emax (Z.pos mx) ex (Z.pos my) ey) as [[mz ez] lz].
  apply binary_round_aux_not_negative.
Qed.

Lemma mul_not_negative (a b : float) :
  sf_not_negative (Prim2SF a) -> sf_not_negative (Prim2SF b) ->
  sf_not_negative (Prim2SF (a * b)).
Proof. rewrite FloatAxioms.mul_spec. apply SFmul_not_negative. Qed.

Lemma div_100_not_negative (a : float) :
  sf_not_negative (Prim2SF a) -> sf_not_negative (Prim2SF (a / 100)).
Proof.
  rewrite FloatAxioms.div_spec.
  change (Prim2SF 100) with (S754_finite false 7036874417766400 (-46)).
  apply SFdiv_not_negative.
Qed.

(** [Math.min] returns NaN or one of its arguments, the one that the other
    is not below. *)
Lemma Math_min_cases (a b : float) :
  (JS.Math_min a b = PrimFloat.nan /\ (is_nan a = true \/ is_nan b = true))
  \/ (is_nan a = false /\ is_nan b = false /\
      ((JS.Math_min a b = a /\ (b <? a) = false)
       \/ (JS.Math_min a b = b /\ (a <? b) = false))).
Proof.
  unfold JS.Math_min.
  destruct (is_nan a) eqn:Ha; simpl; [left; auto|].
  destruct (is_nan b) eqn:Hb; simpl; [left; auto|].
  right. split; [reflexivity|]. split; [reflexivity|].
  destruct (a <? b) eqn:Hab; [left; split; [reflexivity|now apply ltb_asym]|].
  destruct (b <? a) eqn:Hba; [right; auto|].
  destruct (get_sign a); auto.
Qed.

(** A number fails the test [amount <= 0] when it is above zero, and when
    it is NaN. *)
Lemma leb_zero_false (a : float) :
  (a <=? 0) = false <-> (0 <? a) = true \/ is_nan a = true.
Proof.
  rewrite is_nan_spec, FloatAxioms.leb_spec, FloatAxioms.ltb_spec.
  change (Prim2SF 0) with (S754_zero false).
  destruct (Prim2SF a) as [s|s| |s m e]; simpl; try destruct s; simpl;
    intuition discriminate.
Qed.

(** What the store keeps of an amount that passed the test
    [amount <= 0]: nothing of NaN and of Infinity, and the amount itself
    otherwise, which is above zero. *)
Lemma JSON_number_positive (a : float) :
  (a <=? 0) = false ->
  (JS.JSON_number a = None /\ is_finite a = false)
  \/ (JS.JSON_number a = Some a /\ (0 <? a) = true /\ is_finite a = true).
Proof.
  intros H. unfold JS.JSON_number.
  destruct (is_finite a) eqn:Hf; [right|left; auto].
  assert (Hn : is_nan a = false).
  { unfold is_finite in Hf. apply negb_true_iff, orb_false_iff in Hf. tauto. }
  assert (Hz : is_zero a = false).
  { destruct (is_zero a) eqn:Hz; [|reflexivity]. exfalso.
    unfold is_zero in Hz. revert H Hz.
    rewrite FloatAxioms.leb_spec, FloatAxioms.eqb_spec.
    change (Prim2SF PrimFloat.zero) with (S754_zero false).
    change (Prim2SF 0) with (S754_zero false).
    unfold SFleb, SFeqb. by destruct (SFcompare _ _) as [[]|]. }
  rewrite Hz. repeat split.
  apply leb_zero_false in H as [H|H]; congruence.
Qed.

End FloatFacts.

(** ** The fee *)

Section Fee.

Variables CHARGE_PERCENTAGE CAP_AMOUNT : JS.number.

Lemma charge_not_negative (w : JS.number) :
  (0 <=? w) = true -> (0 <=? CHARGE_PERCENTAGE) = true ->
  sf_not_negative (Prim2SF (w * (CHARGE_PERCENTAGE / 100))).
Proof.
  intros Hw Hr.
  apply mul_not_negative; [|apply div_100_not_negative];
    now apply leb_zero_not_negative.
Qed.

(** C6. For a wager amount [w] that is not negative, and a fee policy whose
    rate and cap are not negative, the fee of [getFee] is the minimum of
    the charge, which is the product of [w] by the hundredth of the rate,
    and of the cap: it is never below zero, never above the cap and never
    above the charge, and when the charge is a number the fee is the charge
    or the cap, and not above either.  The fee is NaN only when the charge
    is (the product of an infinite wager by a rate of zero). *)
Theorem getFee_min_bounds (w : JS.number) :
  (0 <=? w) = true ->
  (0 <=? CHARGE_PERCENTAGE) = true ->
  (0 <=? CAP_AMOUNT) = true ->
  let charge := w * (CHARGE_PERCENTAGE / 100) in
  let fee := getFee CHARGE_PERCENTAGE CAP_AMOUNT w in
  (fee <? 0) = false
  /\ (CAP_AMOUNT <? fee) = false
  /\ (charge <? fee) = false
  /\ (is_nan charge = false ->
      (fee = charge \/ fee = CAP_AMOUNT)
      /\ (0 <=? fee) = true
      /\ (fee <=? charge) = true
      /\ (fee <=? CAP_AMOUNT) = true)
  /\ (is_nan charge = true -> is_nan fee = true).
Proof.
  intros Hw Hr Hc charge fee.
  pose proof (charge_not_negative w Hw Hr) as Hcharge. fold charge in Hcharge.
  destruct (leb_zero_not_negative _ Hc) as [Hcap Hcapn].
  assert (Hfee : fee = JS.Math_min charge CAP_AMOUNT) by reflexivity.
  destruct (Math_min_cases charge CAP_AMOUNT)
    as [[E [Hn|Hn]]|(Ha & Hb & [[E Hlt]|[E Hlt]])]; rewrite <- Hfee in E; rewrite E.
  - repeat split; auto using ltb_nan_l, ltb_nan_r; congruence.
  - congruence.
  - repeat split; auto using not_negative_ltb_zero, ltb_irrefl, leb_refl, not_ltb_leb;
      congruence.
  - repeat split; auto using not_negative_ltb_zero, ltb_irrefl, leb_refl, not_ltb_leb;
      congruence.
Qed.

End Fee.

(** ** The store *)

Section StoreFacts.

(** An update keeps the identifier of every row, so it commutes with the
    selection of the rows of an identifier. *)
Lemma filter_id_update key gameId p (t : Db.Table) :
  filter (fun g => Db.id g = key) (Db.update gameId p t)
  = Db.update gameId p (filter (fun g => Db.id g = key) t).
Proof.
  unfold Db.update. induction t as [|g t IH]; [reflexivity|].
  rewrite fmap_cons, (filter_cons _ g t), filter_cons.
  assert (E : Db.id (if decide (Db.game_id g = gameId) then Db.apply_patch p g else g) = Db.id g)
    by (now destruct (decide _)).
  rewrite IH.
  destruct (decide (Db.id g = key)) as [Hk|Hk].
  - rewrite decide_True by congruence. reflexivity.
  - rewrite decide_False by congruence. reflexivity.
Qed.

Lemma select_id_update key gameId p (t : Db.Table) g :
  Db.select_id key t = Some g ->
  Db.select_id key (Db.update gameId p t)
  = Some (if decide (Db.game_id g = gameId) then Db.apply_patch p g else g).
Proof.
  unfold Db.select_id. rewrite filter_id_update.
  destruct (filter _ t) as [|g' [|g'' rest]]; simpl; try discriminate.
  now intros [= ->].
Qed.

(** The row that a handler selected, read again after the handler updated
    the rows of its [game_id]. *)
Lemma select_id_update_own key p (t : Db.Table) g :
  Db.select_id key t = Some g ->
  Db.select_id key (Db.update (Db.game_id g) p t) = Some (Db.apply_patch p g).
Proof.
  intros H. rewrite (select_id_update _ _ _ _ _ H). now rewrite decide_True.
Qed.

Lemma select_id_elem key (t : Db.Table) g : Db.select_id key t = Some g -> g ∈ t.
Proof.
  unfold Db.select_id. intros H.
  destruct (filter _ t) as [|g' [|]] eqn:E; simpl in H; try discriminate.
  injection H as ->.
  assert (Hin : g ∈ filter (fun g0 => Db.id g0 = key) t) by (rewrite E; by left).
  by apply list_elem_of_filter in Hin as [_ ?].
Qed.

(** Where no two rows share a [game_id], it identifies a row. *)
Lemma game_id_key (t : Db.Table) g1 g2 :
  NoDup (Db.game_id <$> t) -> g1 ∈ t -> g2 ∈ t -> Db.game_id g1 = Db.game_id g2 -> g1 = g2.
Proof.
  induction t as [|g t IH]; intros Hnd H1 H2 E; [by apply elem_of_nil in H1|].
  rewrite fmap_cons in Hnd. apply NoDup_cons in Hnd as [Hnotin Hnd].
  apply elem_of_cons in H1 as [->|H1], H2 as [->|H2]; auto.
  - exfalso. apply Hnotin. rewrite E. by apply list_elem_of_fmap_2.
  - exfalso. apply Hnotin. rewrite <- E. by apply list_elem_of_fmap_2.
Qed.

(** A singular update that succeeds concerned one row, and left the rows
    of the update. *)
Lemma update_single_Some gameId p (t rows : Db.Table) :
  Db.update_single gameId p t = Some rows <->
  is_Some (Db.select_game_id gameId t) /\ rows = Db.update gameId p t.
Proof.
  unfold Db.update_single, Db.select_game_id.
  destruct (Db.single _) as [g|]; split.
  - intros [= <-]. eauto.
  - by intros [_ ->].
  - discriminate.
  - by intros [[g H] _].
Qed.

(** The row that a handler selected by its identifier is the one row of
    its [game_id], when the singular update of that [game_id] succeeds. *)
Lemma update_single_row key gameId p (t rows : Db.Table) g :
  Db.select_id key t = Some g -> Db.game_id g = gameId ->
  Db.update_single gameId p t = Some rows ->
  Db.select_game_id gameId t = Some g.
Proof.
  intros Hsel Hg [[g0 Hs] _]%update_single_Some.
  unfold Db.select_game_id in *.
  destruct (filter _ t) as [|g1 [|]] eqn:E; simpl in Hs; try discriminate.
  assert (Hin : g ∈ filter (fun g => Db.game_id g = gameId) t).
  { apply list_elem_of_filter. eauto using select_id_elem. }
  rewrite E in Hin. apply list_elem_of_singleton in Hin. by subst.
Qed.

(** The singular update of the one row of a [game_id] succeeds. *)
Lemma update_single_selected gameId p (t : Db.Table) g :
  Db.select_game_id gameId t = Some g ->
  Db.update_single gameId p t = Some (Db.update gameId p t).
Proof.
  unfold Db.update_single, Db.select_game_id. by intros ->.
Qed.

Lemma Status_eqb_eq a b : Db.Status_eqb a b = true <-> a = b.
Proof. destruct a, b; simpl; split; congruence. Qed.

End StoreFacts.

(** ** Payment verification *)

(** What [validateSignature] does check: a system transfer, for a game in
    SOL, passes only with the recipient and the amount of the game. *)
Lemma validateSignature_system_transfer game info rest :
  Db.token game = TOKENS.SOL ->
  validateSignature game
    {| meta := Some false;
       instructions := ParsedInstruction "system" "transfer" info :: rest |}
  = if bool_decide (destination info = Some (Db.recipient_address game))
       && JS.strict_equal (to_number (lamports info) / LAMPORTS_PER_SOL) (Db.amount game)
    then inr () else inl (ThrowString mismatch).
Proof.
  intros Ht. unfold validateSignature. rewrite decide_True by assumption. reflexivity.
Qed.

(** X22. A checked transfer, for a game in a fungible token, passes only with the
    recipient of the game, a mint of [SPL_MAP] and the amount of the game in
    the decimals of that mint. *)
Lemma validateSignature_transferChecked game program info rest :
  Db.token game <> TOKENS.SOL ->
  validateSignature game
    {| meta := Some false;
       instructions := ParsedInstruction program "transferChecked" info :: rest |}
  = inr () ->
  exists tokenInfo units,
    tokenInfo ∈ SPL_MAP_values
    /\ info_mint info = Some (mint tokenInfo)
    /\ tokenAmount info = Some units
    /\ destination info = Some (Db.recipient_address game)
    /\ JS.strict_equal (digits_to_number units / Math_pow10 (decimals tokenInfo))
         (Db.amount game) = true.
Proof.
  intros Ht. unfold validateSignature. rewrite decide_False by assumption. simpl.
  destruct (find _ SPL_MAP_values) as [tokenInfo|] eqn:Hfind; [|discriminate].
  destruct (tokenAmount info) as [units|]; [|discriminate].
  destruct (bool_decide (destination info = _)) eqn:Hd; [|discriminate].
  destruct (JS.strict_equal _ _) eqn:Ha; [|discriminate].
  intros _. exists tokenInfo, units.
  apply find_some in Hfind as [Hin Hm].
  apply bool_decide_eq_true in Hm, Hd.
  repeat split; auto. by apply list_elem_of_In.
Qed.

(** C1. [validateSignature] accepts transactions that do not pay the game.
    A first instruction that is not of the expected kind is not checked at
    all: for a game in SOL, a token transfer to another account or an
    instruction that is not parsed; for a game in USDC, a plain token
    transfer to another account.  And a game in USDC is paid by a checked
    transfer of the BONK mint, since the mint is looked up among all the
    mints of [SPL_MAP] and never compared with the token of the game. *)
Theorem validateSignature_accepts_mismatch :
  validateSignature Sample.game_created (Sample.transaction_of Sample.bonk_to_carol) = inr ()
  /\ validateSignature Sample.game_created (Sample.transaction_of PartiallyDecodedInstruction)
     = inr ()
  /\ validateSignature Sample.usdc_game (Sample.transaction_of Sample.token_transfer_to_carol)
     = inr ()
  /\ validateSignature Sample.usdc_game (Sample.transaction_of Sample.bonk_deposit) = inr ().
Proof. repeat split; vm_compute; reflexivity. Qed.

(** ** Completion and payout *)

(** The rows after a singular update that succeeded. *)
Ltac single_updates :=
  repeat match goal with
         | H : Db.update_single _ _ _ = Some _ |- _ =>
             apply update_single_Some in H as [? ->]
         end.

(** The transaction that [sendPayout] submits for a token of the games,
    and the success that it reports: the one of the ledger. *)
Lemma try_send_sends env attempts config transfer :
  sends (payout_token config) transfer ->
  try_send env attempts config
  = sendAndConfirmTransaction env attempts
      (transfer (recipientAddress config) (payout_amount config)).
Proof.
  unfold try_send, payout_transaction.
  intros [[Ht ->]|(tokenInfo & Hn & Hl & ->)].
  - by rewrite decide_True.
  - rewrite decide_False by exact Hn. rewrite Hl.
    assert (Hd : decimals tokenInfo <> O).
    { unfold SPL_MAP in Hl.
      apply lookup_insert_Some in Hl as [[_ <-]|[_ Hl]]; [discriminate|].
      apply lookup_insert_Some in Hl as [[_ <-]|[_ Hl]]; [discriminate|].
      by rewrite lookup_empty in Hl. }
    by destruct (decimals tokenInfo).
Qed.

Section Complete.

Variables CHARGE_PERCENTAGE CAP_AMOUNT : JS.number.
Variables DRAW MATE : string.

(** What a successful [postCompleteGame] did. *)
Lemma postCompleteGame_success env req w p w' :
  postCompleteGame CHARGE_PERCENTAGE CAP_AMOUNT DRAW MATE env req w = (res_json p, w') ->
  exists gameUid game new,
    JS.truthy (query req !! "gameUid") = Some gameUid
    /\ Db.select_id gameUid (games w) = Some game
    /\ Db.is_verified game = true
    /\ games w' = Db.update (Db.game_id game) completed_patch (games w)
    /\ payouts w' = (payouts w ++ new)%list
    /\ (1 <= length new <= 2)%nat.
Proof.
  unfold postCompleteGame, postCompleteGame_body. unfold_action.
  intros H. follow_branches. all: single_updates.
  all: eexists _, _, _; split; [reflexivity|]; split; [eassumption|];
    split; [by apply negb_false_iff|]; split; [reflexivity|].
  all: rewrite <- ?app_assoc; split; [reflexivity|]; simpl; lia.
Qed.

(** A game that is completed cannot be completed again: the handler
    answers with an error, and leaves the store and the payouts alone. *)
Lemma postCompleteGame_completed env req w gameUid game :
  JS.truthy (query req !! "gameUid") = Some gameUid ->
  Db.select_id gameUid (games w) = Some game ->
  Db.is_verified game = true ->
  Db.status game = Db.completed ->
  postCompleteGame CHARGE_PERCENTAGE CAP_AMOUNT DRAW MATE env req w
  = (res_status_400 (if store_select env then "Game is already completed"
                     else "Game not found"), w).
Proof.
  intros Hq Hsel Hv Hst.
  unfold postCompleteGame, postCompleteGame_body. unfold_action.
  rewrite Hq. destruct (store_select env); [|reflexivity].
  rewrite Hsel, Hv, Hst. reflexivity.
Qed.

(** The steps of [postCompleteGame] up to the payout, for a request that
    is ready. *)
Ltac run_to_payout Hready :=
  destruct Hready
    as ((gameUid & Hq & Hsel) & Hs & Hv & Hst & (account & Hacc) & Hconn & Hstat & Hkey);
  unfold postCompleteGame, postCompleteGame_body; unfold_action;
  unfold validatedClusterParams in Hconn; simpl in Hconn;
  rewrite Hq, Hs, Hsel, Hv; simpl;
  replace (Db.Status_eqb (Db.status _) Db.completed) with false
    by (symmetry; apply not_true_iff_false; by rewrite Status_eqb_eq);
  rewrite Hacc, Hconn, Hstat, Hkey; simpl.

(** C5. On a draw, the creator is sent the wager less the fee and so is
    the opponent when the record has an opponent address; without one the
    creator alone is refunded, and the call still succeeds.  Each refund is
    a transfer of that amount, in the base units of the token of the game,
    which is submitted to the ledger, and the success recorded for it is
    the answer of the ledger.  The game is then completed, when it is the
    one row of its Lichess game and the store takes the update. *)
Theorem postCompleteGame_draw env req w game stat transfer :
  complete_ready env req w game stat ->
  stat_status stat = Some DRAW ->
  sends (Db.token game) transfer ->
  PublicKey_valid env (Db.player_address game) = true ->
  let amount := JS.ToNumber (Db.amount game) in
  let refunded := amount - getFee CHARGE_PERCENTAGE CAP_AMOUNT amount in
  let refund address :=
    {| payout_amount := refunded;
       payout_token := Db.token game;
       recipientAddress := address |} in
  let submitted position address :=
    (refund address,
     sendAndConfirmTransaction env (length (payouts w) + position)
       (transfer address refunded)) in
  let result := postCompleteGame CHARGE_PERCENTAGE CAP_AMOUNT DRAW MATE env req w in
  let completed :=
    store_update env = true ->
    Db.select_game_id (Db.game_id game) (games w) = Some game ->
    result.1 = res_json (CompletedAction "Game completed")
    /\ games result.2 = Db.update (Db.game_id game) completed_patch (games w) in
  match JS.truthy (Db.opponent_address game) with
  | Some opponent =>
      PublicKey_valid env opponent = true ->
      payouts result.2
      = (payouts w ++ [submitted 0%nat (Db.player_address game); submitted 1%nat opponent])%list
      /\ completed
  | None =>
      payouts result.2 = (payouts w ++ [submitted 0%nat (Db.player_address game)])%list
      /\ completed
  end.
Proof.
  intros Hready Hdraw Hsends Hcreator amount refunded refund submitted result completed.
  subst result completed submitted.
  destruct (JS.truthy (Db.opponent_address game)) as [opponent|] eqn:Hopp.
  - intros Hvalid. run_to_payout Hready.
    rewrite Hdraw, Hopp. rewrite bool_decide_false by (intros E; by apply E). simpl.
    rewrite decide_True by reflexivity. rewrite Hcreator. simpl. rewrite Hvalid.
    rewrite !(try_send_sends _ _ _ transfer) by exact Hsends. simpl.
    rewrite length_app, Nat.add_0_r. simpl.
    fold amount. fold refunded.
    split.
    + destruct (store_update env); [destruct (Db.update_single _ _ _)|]; simpl;
        by rewrite <- app_assoc.
    + intros -> Hone. rewrite (update_single_selected _ _ _ _ Hone). done.
  - run_to_payout Hready.
    rewrite Hdraw, Hopp. rewrite bool_decide_false by (intros E; by apply E). simpl.
    rewrite decide_True by reflexivity. rewrite Hcreator. simpl.
    rewrite !(try_send_sends _ _ _ transfer) by exact Hsends. simpl.
    rewrite Nat.add_0_r. fold amount. fold refunded.
    split.
    + by destruct (store_update env); [destruct (Db.update_single _ _ _)|].
    + intros -> Hone. rewrite (update_single_selected _ _ _ _ Hone). done.
Qed.





(** X16. [postCompleteGame] does not read what [sendPayout] returns: its answer
    and the rows it leaves in the store are the same whatever the ledger
    does with the payouts. *)
Lemma postCompleteGame_ignores_ledger confirms env req w :
  let result := postCompleteGame CHARGE_PERCENTAGE CAP_AMOUNT DRAW MATE env req w in
  let result' :=
    postCompleteGame CHARGE_PERCENTAGE CAP_AMOUNT DRAW MATE (with_ledger confirms env) req w in
  result'.1 = result.1 /\ games result'.2 = games result.2.
Proof.
  unfold postCompleteGame, postCompleteGame_body, parse_account. unfold_action. simpl.
  follow_branches; split; reflexivity.
Qed.

End Complete.

(** C2. A draw is completed while the ledger confirms nothing: both refunds
    fail, and yet the call succeeds and sets the status to completed, so
    that the retry, on a day when the ledger works, is refused and pays
    nothing. *)
Theorem postCompleteGame_completes_after_failed_payout :
  let refund address :=
    ({| payout_amount := 0.95; payout_token := "SOL"; recipientAddress := address |}, false) in
  let result :=
    postCompleteGame Sample.CHARGE_PERCENTAGE Sample.CAP_AMOUNT Sample.DRAW Sample.MATE
      Sample.ledger_down Sample.complete_request (Sample.world_of Sample.game_joined) in
  result.1 = res_json (CompletedAction "Game completed")
  /\ payouts result.2 = [refund Sample.alice_address; refund Sample.bob_address]
  /\ games result.2 = [Db.apply_patch completed_patch Sample.game_joined]
  /\ Db.status (Db.apply_patch completed_patch Sample.game_joined) = Db.completed
  /\ postCompleteGame Sample.CHARGE_PERCENTAGE Sample.CAP_AMOUNT Sample.DRAW Sample.MATE
       Sample.services Sample.complete_request result.2
     = (res_status_400 "Game is already completed", result.2).
Proof. repeat split; vm_compute; reflexivity. Qed.

(** C3. Completing twice is not idempotent.  The payout is sent before
    the status is written: when the store refuses the update of the first
    call, the two refunds of a draw are already confirmed by the ledger,
    the answer is an error and the game is not completed; the second call
    passes the guard of a completed game, has both refunds confirmed again
    and succeeds.  Each refund is a system transfer of 950000000
    lamports. *)
Theorem postCompleteGame_is_not_idempotent :
  let refund address :=
    ({| payout_amount := 0.95; payout_token := "SOL"; recipientAddress := address |}, true) in
  let first :=
    postCompleteGame Sample.CHARGE_PERCENTAGE Sample.CAP_AMOUNT Sample.DRAW Sample.MATE
      Scenario.store_refuses Sample.complete_request (Sample.world_of Sample.game_joined) in
  let second :=
    postCompleteGame Sample.CHARGE_PERCENTAGE Sample.CAP_AMOUNT Sample.DRAW Sample.MATE
      Sample.services Sample.complete_request first.2 in
  first.1 = res_status_400 "Error updating game, please try again"
  /\ games first.2 = [Sample.game_joined]
  /\ Db.status Sample.game_joined = Db.created
  /\ payouts first.2 = [refund Sample.alice_address; refund Sample.bob_address]
  /\ second.1 = res_json (CompletedAction "Game completed")
  /\ payouts second.2
     = [refund Sample.alice_address; refund Sample.bob_address;
        refund Sample.alice_address; refund Sample.bob_address]
  /\ payout_transaction (refund Sample.alice_address).1
     = Some (SystemTransfer Sample.alice_address 950000000)
  /\ payout_transaction (refund Sample.bob_address).1
     = Some (SystemTransfer Sample.bob_address 950000000).
Proof. repeat split; vm_compute; reflexivity. Qed.

(** ** Joining *)

(** [postJoinGame] only reads the store. *)
Lemma postJoinGame_reads env req w : (postJoinGame env req w).2 = w.
Proof.
  unfold postJoinGame, postJoinGame_body. unfold_action.
  follow_branches; reflexivity.
Qed.

(** What a successful [postVerifyJoinGame] did. *)
Lemma postVerifyJoinGame_success env req w p w' :
  postVerifyJoinGame env req w = (res_json p, w') ->
  exists gameUid game username account signature,
    JS.truthy (query req !! "gameUid") = Some gameUid
    /\ Db.select_id gameUid (games w) = Some game
    /\ Db.is_verified game = true
    /\ Db.status game = Db.created
    /\ username <> Db.username game
    /\ account <> Db.player_address game
    /\ games w' = Db.update (Db.game_id game) (join_patch username account signature) (games w)
    /\ payouts w' = payouts w
    /\ Db.select_game_id (Db.game_id game) (games w) = Some game.
Proof.
  unfold postVerifyJoinGame, postVerifyJoinGame_body. unfold_action.
  intros H. follow_branches.
  all: match goal with
       | Hs : Db.select_id _ _ = Some ?g, Hu : Db.update_single (Db.game_id ?g) _ _ = Some _
         |- _ => pose proof (update_single_row _ _ _ _ _ _ Hs eq_refl Hu)
       end.
  all: single_updates.
  all: eexists _, _, _, _, _; repeat split; try reflexivity; try eassumption;
    try (by apply negb_false_iff); try (by apply Status_eqb_eq, negb_false_iff);
    congruence.
Qed.

(** A verify-join that fails leaves the world as it was. *)
Lemma postVerifyJoinGame_failure env req w message w' :
  postVerifyJoinGame env req w = (res_status_400 message, w') -> w' = w.
Proof.
  unfold postVerifyJoinGame, postVerifyJoinGame_body. unfold_action.
  intros H. follow_branches; reflexivity.
Qed.

Section Gate.

Variables CHARGE_PERCENTAGE CAP_AMOUNT : JS.number.
Variables DRAW MATE : string.

(** C7. For a game that is not verified, join, verify-join and complete
    all fail and leave the store and the payouts as they were; when the
    store answers, the error is the one of the verification gate, for join
    once the username of the request is accepted. *)
Theorem unverified_game_is_gated env req w gameUid game :
  JS.truthy (query req !! "gameUid") = Some gameUid ->
  Db.select_id gameUid (games w) = Some game ->
  Db.is_verified game = false ->
  (exists message, postJoinGame env req w = (res_status_400 message, w))
  /\ (exists message, postVerifyJoinGame env req w = (res_status_400 message, w))
  /\ (exists message,
        postCompleteGame CHARGE_PERCENTAGE CAP_AMOUNT DRAW MATE env req w
        = (res_status_400 message, w))
  /\ (store_select env = true ->
      (forall username,
          validateUsername env (query req) = inr username ->
          postJoinGame env req w = (res_status_400 "Game is not verified", w))
      /\ postVerifyJoinGame env req w = (res_status_400 "Game is not verified", w)
      /\ postCompleteGame CHARGE_PERCENTAGE CAP_AMOUNT DRAW MATE env req w
         = (res_status_400 "Game is not verified", w)).
Proof.
  intros Hq Hsel Hv.
  unfold postJoinGame, postVerifyJoinGame, postCompleteGame,
    postJoinGame_body, postVerifyJoinGame_body, postCompleteGame_body.
  unfold_action. rewrite Hq.
  destruct (store_select env); rewrite ?Hsel, ?Hv; simpl.
  - repeat split; try (eexists; reflexivity).
    + destruct (validateUsername env (query req)) as [[]|]; eexists; reflexivity.
    + intros username ->. reflexivity.
  - repeat split; try (eexists; reflexivity); try discriminate.
    destruct (validateUsername env (query req)) as [[]|]; eexists; reflexivity.
Qed.

End Gate.

(** A patch that does not name the opponent keeps a row free of
    self-match. *)
Lemma no_self_match_patch p g :
  Db.set_opponent_username p = None ->
  Db.set_opponent_address p = None ->
  no_self_match_row g -> no_self_match_row (Db.apply_patch p g).
Proof. intros Hu Ha [H1 H2]. split; simpl; by rewrite ?Hu, ?Ha. Qed.

Lemma no_self_match_update gameId p (t : Db.Table) :
  Db.set_opponent_username p = None ->
  Db.set_opponent_address p = None ->
  Forall no_self_match_row t -> Forall no_self_match_row (Db.update gameId p t).
Proof.
  intros Hu Ha Hall. unfold Db.update. apply Forall_fmap.
  eapply Forall_impl; [exact Hall|]. intros g Hg. simpl.
  destruct (decide _); auto using no_self_match_patch.
Qed.

Lemma no_self_match_insert (t : Db.Table) g :
  Db.opponent_username g = None ->
  Db.opponent_address g = None ->
  Forall no_self_match_row t -> Forall no_self_match_row (t ++ [g])%list.
Proof.
  intros Hu Ha Hall. apply Forall_app. split; [exact Hall|].
  apply Forall_singleton. split; congruence.
Qed.

(** The one row that a verify-join updates is the game that it checked:
    its opponent is not its creator. *)
Lemma postVerifyJoinGame_preserves_no_self_match env req w :
  Forall no_self_match_row (games w) ->
  Forall no_self_match_row (games (postVerifyJoinGame env req w).2).
Proof.
  intros Hall.
  destruct (postVerifyJoinGame env req w) as [[p|message] w'] eqn:H; simpl.
  - destruct (postVerifyJoinGame_success _ _ _ _ _ H)
      as (gameUid & game & username & account & signature
          & _ & Hsel & _ & _ & Hu & Ha & Hg & _ & Hone).
    rewrite Hg. unfold Db.update. apply Forall_fmap, Forall_forall.
    intros g Hin. simpl. destruct (decide (Db.game_id g = Db.game_id game)) as [E|].
    + assert (g = game) as ->.
      { unfold Db.select_game_id in Hone.
        destruct (filter _ (games w)) as [|g1 [|]] eqn:Ef; simpl in Hone; try discriminate.
        injection Hone as ->.
        assert (Hf : g ∈ filter (fun g => Db.game_id g = Db.game_id game) (games w))
          by (by apply list_elem_of_filter).
        rewrite Ef in Hf. by apply list_elem_of_singleton in Hf. }
      split; simpl; congruence.
    + by eapply Forall_forall in Hall.
  - by rewrite (postVerifyJoinGame_failure _ _ _ _ _ H).
Qed.

Section NoSelfMatch.

Variables CHARGE_PERCENTAGE CAP_AMOUNT : JS.number.
Variables DRAW MATE : string.
Variable DEFAULT_SOL_ADDRESS : string.

(** Closes the goal on the rows that a handler left. *)
Ltac keeps_no_self_match :=
  first
    [ assumption
    | apply no_self_match_insert; [reflexivity|reflexivity|assumption]
    | apply no_self_match_update; [reflexivity|reflexivity|assumption] ].

(** No request to a POST route makes the creator of a row its opponent. *)
Lemma step_preserves_no_self_match w w' :
  step CHARGE_PERCENTAGE CAP_AMOUNT DRAW MATE DEFAULT_SOL_ADDRESS w w' ->
  Forall no_self_match_row (games w) -> Forall no_self_match_row (games w').
Proof.
  intros Hstep Hall. destruct Hstep.
  - unfold postCreateGame, postCreateGame_body. unfold_action.
    follow_branches. all: keeps_no_self_match.
  - unfold postVerifyCreateGame, postVerifyCreateGame_body. unfold_action.
    follow_branches. all: single_updates. all: simpl; keeps_no_self_match.
  - by rewrite postJoinGame_reads.
  - unfold postPublicGames. fold (postJoinGame env req). by rewrite postJoinGame_reads.
  - by apply postVerifyJoinGame_preserves_no_self_match.
  - unfold postCompleteGame, postCompleteGame_body. unfold_action.
    follow_branches. all: single_updates. all: simpl; keeps_no_self_match.
Qed.

End NoSelfMatch.

(** C8. A join of a game under the username of its creator, or from the
    address of its creator, fails and changes nothing, and so does the
    verification of such a join; for a game that is verified and open the
    error is that of a self-match.  Hence the opponent that a successful
    verify-join records has neither the username nor the address of the
    creator; and, over any sequence of requests to the POST routes, whatever
    the services answer, no row of the store ever has its creator as
    opponent, by username or by address, once none has. *)
Theorem join_refuses_self_match env req w :
  (forall gameUid game,
      JS.truthy (query req !! "gameUid") = Some gameUid ->
      Db.select_id gameUid (games w) = Some game ->
      (JS.truthy (query req !! "username") = Some (Db.username game)
       \/ body_account req = Some (Db.player_address game) ->
       (exists message, postJoinGame env req w = (res_status_400 message, w))
       /\ (exists message, postVerifyJoinGame env req w = (res_status_400 message, w)))
      /\ (store_select env = true ->
          Db.is_verified game = true ->
          Db.status game = Db.created ->
          forall username,
            validateUsername env (query req) = inr username ->
            username = Db.username game
            \/ parse_account env (body_account req) = inr (Db.player_address game) ->
            postJoinGame env req w = (res_status_400 own_game, w)
            /\ postVerifyJoinGame env req w = (res_status_400 own_game, w))
      /\ (forall p w',
            postVerifyJoinGame env req w = (res_json p, w') ->
            exists game',
              Db.select_id gameUid (games w') = Some game'
              /\ Db.username game' = Db.username game
              /\ Db.player_address game' = Db.player_address game
              /\ is_Some (Db.opponent_username game')
              /\ is_Some (Db.opponent_address game')
              /\ Db.opponent_username game' <> Some (Db.username game')
              /\ Db.opponent_address game' <> Some (Db.player_address game')))
  /\ (forall CHARGE_PERCENTAGE CAP_AMOUNT DRAW MATE DEFAULT_SOL_ADDRESS w',
        rtc (step CHARGE_PERCENTAGE CAP_AMOUNT DRAW MATE DEFAULT_SOL_ADDRESS) w w' ->
        Forall no_self_match_row (games w) ->
        Forall no_self_match_row (games w')).
Proof.
  split.
  - intros gameUid game Hq Hsel. split; [|split].
    + intros Hself. split.
      * unfold postJoinGame, postJoinGame_body, validateUsername, parse_account.
        unfold_action. rewrite Hq.
        destruct Hself as [Hu|Ha]; [rewrite Hu|rewrite Ha]; follow_branches;
          try (eexists; reflexivity); congruence.
      * unfold postVerifyJoinGame, postVerifyJoinGame_body, validateUsername, parse_account.
        unfold_action. rewrite Hq.
        destruct Hself as [Hu|Ha]; [rewrite Hu|rewrite Ha]; follow_branches;
          try (eexists; reflexivity); congruence.
    + intros Hs Hv Hst username Hu Hself.
      unfold postJoinGame, postVerifyJoinGame, postJoinGame_body, postVerifyJoinGame_body.
      unfold_action. rewrite Hu, Hq, Hs, Hsel, Hv, Hst. simpl.
      destruct (decide (Db.username game = username)) as [|Hn]; [done|].
      destruct Hself as [->|Ha]; [done|].
      rewrite Ha. simpl.
      destruct (decide (Db.player_address game = Db.player_address game)); done.
    + intros p w' H.
      destruct (postVerifyJoinGame_success _ _ _ _ _ H)
        as (gameUid' & game0 & username & account & signature
            & Hq' & Hsel' & _ & _ & Hu & Ha & Hg & _).
      assert (gameUid' = gameUid) as -> by congruence.
      assert (game0 = game) as -> by congruence.
      exists (Db.apply_patch (join_patch username account signature) game).
      rewrite Hg. split; [by apply select_id_update_own|].
      simpl. repeat split; eauto; congruence.
  - intros CHARGE_PERCENTAGE CAP_AMOUNT DRAW MATE DEFAULT_SOL_ADDRESS w' Hrun.
    induction Hrun as [w|w w1 w2 Hstep _ IH]; [done|].
    intros Hall. apply IH. by eapply step_preserves_no_self_match.
Qed.

(** X21. Where the Lichess game of a row identifies it, no verify-join ever
    records the creator of a row as its opponent. *)
Lemma postVerifyJoinGame_no_self_match env req w :
  NoDup (Db.game_id <$> games w) ->
  Forall no_self_match_row (games w) ->
  Forall no_self_match_row (games (postVerifyJoinGame env req w).2).
Proof.
  intros Hnd Hall.
  destruct (postVerifyJoinGame env req w) as [[p|message] w'] eqn:H; simpl.
  - destruct (postVerifyJoinGame_success _ _ _ _ _ H)
      as (gameUid & game & username & account & signature
          & _ & Hsel & _ & _ & Hu & Ha & Hg & _).
    rewrite Hg. unfold Db.update. apply Forall_fmap, Forall_forall.
    intros g Hin. simpl. destruct (decide (Db.game_id g = Db.game_id game)) as [E|].
    + assert (g = game) as -> by eauto using game_id_key, select_id_elem.
      split; simpl; congruence.
    + by eapply Forall_forall in Hall.
  - by rewrite (postVerifyJoinGame_failure _ _ _ _ _ H).
Qed.

(** C9. A successful verify-join records the username, the address and the
    signature of the opponent, and leaves the status of the game at
    created: the handler does not write the status. *)
Theorem postVerifyJoinGame_keeps_status env req w p w' :
  postVerifyJoinGame env req w = (res_json p, w') ->
  exists gameUid game',
    JS.truthy (query req !! "gameUid") = Some gameUid
    /\ Db.select_id gameUid (games w') = Some game'
    /\ is_Some (Db.opponent_username game')
    /\ is_Some (Db.opponent_address game')
    /\ is_Some (Db.opponent_signature game')
    /\ Db.status game' = Db.created.
Proof.
  intros H.
  destruct (postVerifyJoinGame_success _ _ _ _ _ H)
    as (gameUid & game & username & account & signature
        & Hq & Hsel & _ & Hst & _ & _ & Hg & _).
  exists gameUid, (Db.apply_patch (join_patch username account signature) game).
  rewrite Hg. split; [assumption|]. split; [by apply select_id_update_own|].
  simpl. repeat split; eauto.
Qed.

(** A game that has an opponent is still open: a third player joins it, and
    takes the place of the opponent. *)
Example postVerifyJoinGame_twice :
  postVerifyJoinGame Sample.services
    (Sample.join_request "bob" Sample.bob_address "sig-bob")
    (Sample.world_of Sample.game_verified)
  = (res_json (CompletedAction "Start the duel!"), Sample.world_of Sample.game_joined)
  /\ postVerifyJoinGame Sample.services
       (Sample.join_request "carol" Sample.carol_address "sig-carol")
       (Sample.world_of Sample.game_joined)
     = (res_json (CompletedAction "Start the duel!"), Sample.world_of Sample.game_rejoined)
  /\ Db.opponent_username Sample.game_rejoined = Some "carol".
Proof. repeat split; vm_compute; reflexivity. Qed.

(** ** Creation *)

Section Create.

Variable DEFAULT_SOL_ADDRESS : string.

(** X20. [postCreateGame] leaves the store as it was, or adds one row: a game
    with status created that is not verified, has no signature and no
    opponent, whose token is one of [TOKENS] and whose amount is a finite
    number above zero, or [null] when the amount of the request is NaN or
    Infinity. *)
Lemma postCreateGame_effect env req w :
  let w' := (postCreateGame DEFAULT_SOL_ADDRESS env req w).2 in
  w' = w
  \/ exists game,
      games w' = (games w ++ [game])%list
      /\ payouts w' = payouts w
      /\ Db.status game = Db.created
      /\ Db.is_verified game = false
      /\ Db.signature game = None
      /\ Db.opponent_username game = None
      /\ Db.opponent_address game = None
      /\ Db.token game ∈ TOKENS.values
      /\ (Db.amount game = None
          \/ exists amount,
              Db.amount game = Some amount
              /\ (0 <? amount) = true /\ is_finite amount = true).
Proof.
  unfold postCreateGame, postCreateGame_body, validatedQueryParams. unfold_action.
  follow_branches; auto.
  all: right; eexists; repeat split; simpl; auto.
  all: try by eapply bool_decide_eq_true_1.
  all: match goal with
       | H : (?a <=? 0) = false |- _ =>
           destruct (JSON_number_positive a H) as [[-> _]|(-> & ? & ?)]; eauto
       end.
Qed.

End Create.

(** C10. An amount that is not a number passes [validatedQueryParams]:
    [parseFloat] returns NaN instead of throwing, and NaN is not below or
    equal to zero.  The game is then inserted, with status created and not
    verified; the row travels as JSON, which has no NaN, and its amount is
    [null]. *)
Theorem postCreateGame_accepts_non_numeric_amount :
  let result :=
    postCreateGame Sample.escrow Sample.services (Sample.create_request "abc")
      {| games := []; payouts := [] |} in
  (exists params,
      validatedQueryParams Sample.services (query (Sample.create_request "abc")) = inr params
      /\ is_nan (qp_amount params) = true)
  /\ (exists game,
        games result.2 = [game]
        /\ Db.amount game = None
        /\ Db.status game = Db.created
        /\ Db.is_verified game = false).
Proof.
  split.
  - eexists. split; vm_compute; reflexivity.
  - eexists. repeat split; vm_compute; reflexivity.
Qed.

(** ** The theorems on the sample deployment *)

Lemma getFee_min_bounds_witness :
  let charge := 2 * (5 / 100) in
  let fee := getFee 5 1 2 in
  (fee <? 0) = false
  /\ (1 <? fee) = false
  /\ (charge <? fee) = false
  /\ (is_nan charge = false ->
      (fee = charge \/ fee = 1)
      /\ (0 <=? fee) = true
      /\ (fee <=? charge) = true
      /\ (fee <=? 1) = true)
  /\ (is_nan charge = true -> is_nan fee = true).
Proof.
  apply (getFee_min_bounds 5 1 2); reflexivity.
Defined.

(** The fee of the code is not the fee as the specification writes it: on
    a wager of 3 at a rate of 10, the product by the hundredth of the rate
    and the hundredth of the product differ in their last bit. *)
Lemma getFee_is_not_spec_fee : getFee 10 1 3 <> spec_fee 10 1 3.
Proof.
  intros H. apply (f_equal (fun x => x =? spec_fee 10 1 3)) in H.
  vm_compute in H. discriminate.
Defined.

(** The joined game of the sample is ready for its payout, whatever Lichess
    reports. *)
Lemma complete_ready_sample stat :
  complete_ready (Sample.env true (Sample.transaction_of Sample.sol_deposit) stat)
    Sample.complete_request (Sample.world_of Sample.game_joined) Sample.game_joined stat.
Proof.
  split; [exists "id-1"; split; reflexivity|].
  repeat split; try reflexivity; try discriminate.
  eexists; reflexivity.
Defined.


Lemma postCompleteGame_draw_witness :
  let result :=
    postCompleteGame Sample.CHARGE_PERCENTAGE Sample.CAP_AMOUNT Sample.DRAW Sample.MATE
      Sample.services Sample.complete_request (Sample.world_of Sample.game_joined) in
  let refunded := 1 - getFee Sample.CHARGE_PERCENTAGE Sample.CAP_AMOUNT 1 in
  let submitted position address :=
    ({| payout_amount := refunded; payout_token := "SOL"; recipientAddress := address |},
     sendAndConfirmTransaction Sample.services position
       (SystemTransfer address (refunded * LAMPORTS_PER_SOL))) in
  payouts result.2 = [submitted 0%nat Sample.alice_address; submitted 1%nat Sample.bob_address]
  /\ result.1 = res_json (CompletedAction "Game completed")
  /\ games result.2
     = Db.update (Db.game_id Sample.game_joined) completed_patch
         (games (Sample.world_of Sample.game_joined)).
Proof.
  destruct (postCompleteGame_draw Sample.CHARGE_PERCENTAGE Sample.CAP_AMOUNT Sample.DRAW
              Sample.MATE Sample.services Sample.complete_request
              (Sample.world_of Sample.game_joined) Sample.game_joined Sample.draw_stats
              (fun address amount => SystemTransfer address (amount * LAMPORTS_PER_SOL))
              (complete_ready_sample _) eq_refl (or_introl (conj eq_refl eq_refl)) eq_refl
              eq_refl) as [Hpaid Hdone].
  split; [exact Hpaid|]. exact (Hdone eq_refl eq_refl).
Defined.

Lemma unverified_game_is_gated_witness :
  postVerifyJoinGame Sample.services
    (Sample.join_request "bob" Sample.bob_address "sig-bob")
    (Sample.world_of Sample.game_created)
  = (res_status_400 "Game is not verified", Sample.world_of Sample.game_created)
  /\ postCompleteGame Sample.CHARGE_PERCENTAGE Sample.CAP_AMOUNT Sample.DRAW Sample.MATE
       Sample.services (Sample.join_request "bob" Sample.bob_address "sig-bob")
       (Sample.world_of Sample.game_created)
     = (res_status_400 "Game is not verified", Sample.world_of Sample.game_created).
Proof.
  destruct (unverified_game_is_gated Sample.CHARGE_PERCENTAGE Sample.CAP_AMOUNT Sample.DRAW
              Sample.MATE Sample.services
              (Sample.join_request "bob" Sample.bob_address "sig-bob")
              (Sample.world_of Sample.game_created)
              "id-1" Sample.game_created eq_refl eq_refl eq_refl) as (_ & _ & _ & H).
  apply H. reflexivity.
Defined.

Lemma join_refuses_self_match_witness :
  let self_join := Sample.join_request "alice" Sample.bob_address "sig" in
  let joined :=
    (postVerifyJoinGame Sample.services
       (Sample.join_request "bob" Sample.bob_address "sig-bob")
       (Sample.world_of Sample.game_verified)).2 in
  postJoinGame Sample.services self_join (Sample.world_of Sample.game_verified)
  = (res_status_400 own_game, Sample.world_of Sample.game_verified)
  /\ postVerifyJoinGame Sample.services self_join (Sample.world_of Sample.game_verified)
     = (res_status_400 own_game, Sample.world_of Sample.game_verified)
  /\ Forall no_self_match_row (games joined).
Proof.
  intros self_join joined.
  destruct (join_refuses_self_match Sample.services self_join
              (Sample.world_of Sample.game_verified)) as [Hrefuses Hnever].
  destruct (Hrefuses "id-1" Sample.game_verified eq_refl eq_refl) as (_ & H & _).
  destruct (H eq_refl eq_refl eq_refl "alice" eq_refl (or_introl eq_refl)) as [H1 H2].
  split; [exact H1|]. split; [exact H2|].
  apply (Hnever Sample.CHARGE_PERCENTAGE Sample.CAP_AMOUNT Sample.DRAW Sample.MATE
           Sample.escrow joined).
  - apply rtc_once. apply step_verifyJoinGame.
  - apply Forall_singleton. split; discriminate.
Defined.

Lemma postVerifyJoinGame_keeps_status_witness :
  exists gameUid game',
    JS.truthy (query (Sample.join_request "bob" Sample.bob_address "sig-bob") !! "gameUid")
    = Some gameUid
    /\ Db.select_id gameUid (games (Sample.world_of Sample.game_joined)) = Some game'
    /\ is_Some (Db.opponent_username game')
    /\ is_Some (Db.opponent_address game')
    /\ is_Some (Db.opponent_signature game')
    /\ Db.status game' = Db.created.
Proof.
  apply (postVerifyJoinGame_keeps_status Sample.services
           (Sample.join_request "bob" Sample.bob_address "sig-bob")
           (Sample.world_of Sample.game_verified) (CompletedAction "Start the duel!")).
  vm_compute. reflexivity.
Defined.

(** * Sequences of requests, and the rest of the routes *)

(** ** The life of a row *)

Lemma row_advances_refl g : row_advances g g.
Proof. unfold row_advances. naive_solver. Qed.

Lemma row_advances_trans g1 g2 g3 :
  row_advances g1 g2 -> row_advances g2 g3 -> row_advances g1 g3.
Proof.
  unfold row_advances.
  intros (?&?&?&?&?&?&?&?&Hv&Hs&?&?&?&?) (?&?&?&?&?&?&?&?&Hv'&Hs'&?&?&?&?).
  repeat split; try congruence; auto.
  - destruct Hv' as [->|]; auto.
  - destruct Hs' as [->|]; auto.
Qed.

Lemma world_advances_refl w : world_advances w w.
Proof. split; [|reflexivity]. intros i g H. exists g. auto using row_advances_refl. Qed.

Lemma world_advances_trans w1 w2 w3 :
  world_advances w1 w2 -> world_advances w2 w3 -> world_advances w1 w3.
Proof.
  intros [H1 P1] [H2 P2]. split; [|by etrans].
  intros i g Hg. destruct (H1 i g Hg) as (g' & Hg' & A1).
  destruct (H2 i g' Hg') as (g'' & Hg'' & A2).
  exists g''. eauto using row_advances_trans.
Qed.

Lemma apply_patch_advances p g : forward_patch p -> row_advances g (Db.apply_patch p g).
Proof.
  intros [Hv Hs]. unfold row_advances. simpl.
  repeat split; auto.
  - destruct Hv as [->| ->]; simpl; auto.
  - destruct Hs as [->| ->]; simpl; auto.
  - destruct (Db.set_signature p); simpl; eauto.
  - destruct (Db.set_opponent_username p); simpl; eauto.
  - destruct (Db.set_opponent_address p); simpl; eauto.
  - destruct (Db.set_opponent_signature p); simpl; eauto.
Qed.

(** An update by a forward patch, with more payouts, advances the world. *)
Lemma update_advances w gameId p more :
  forward_patch p ->
  world_advances w
    {| games := Db.update gameId p (games w); payouts := (payouts w ++ more)%list |}.
Proof.
  intros Hp. split; simpl; [|by apply prefix_app_r].
  intros i g Hg. unfold Db.update. rewrite list_lookup_fmap, Hg. simpl.
  eexists. split; [reflexivity|].
  destruct (decide _); auto using row_advances_refl, apply_patch_advances.
Qed.

Lemma update_advances_same w gameId p :
  forward_patch p ->
  world_advances w {| games := Db.update gameId p (games w); payouts := payouts w |}.
Proof.
  intros Hp. split; simpl; [|reflexivity].
  intros i g Hg. unfold Db.update. rewrite list_lookup_fmap, Hg. simpl.
  eexists. split; [reflexivity|].
  destruct (decide _); auto using row_advances_refl, apply_patch_advances.
Qed.

Lemma insert_advances w g :
  world_advances w {| games := (games w ++ [g])%list; payouts := payouts w |}.
Proof.
  split; simpl; [|reflexivity].
  intros i g0 Hg. exists g0. split; [|apply row_advances_refl].
  by apply lookup_app_l_Some.
Qed.

Lemma payouts_advance w more :
  world_advances w {| games := games w; payouts := (payouts w ++ more)%list |}.
Proof.
  split; simpl; [|by apply prefix_app_r].
  intros i g Hg. exists g. auto using row_advances_refl.
Qed.

Lemma forward_completed : forward_patch completed_patch.
Proof. split; simpl; auto. Qed.

(** Closes the goal on a world that a handler left. *)
Ltac advances :=
  first
    [ apply world_advances_refl
    | apply insert_advances
    | apply update_advances_same; split; simpl; auto
    | rewrite <- ?app_assoc; apply update_advances; split; simpl; auto
    | rewrite <- ?app_assoc; apply payouts_advance ].

Section Invariant.

Variables CHARGE_PERCENTAGE CAP_AMOUNT : JS.number.
Variables DRAW MATE : string.
Variable DEFAULT_SOL_ADDRESS : string.

Lemma postCreateGame_advances env req w :
  world_advances w (postCreateGame DEFAULT_SOL_ADDRESS env req w).2.
Proof.
  unfold postCreateGame, postCreateGame_body. unfold_action.
  follow_branches. all: single_updates. all: advances.
Qed.

Lemma postVerifyCreateGame_advances env req w :
  world_advances w (postVerifyCreateGame env req w).2.
Proof.
  unfold postVerifyCreateGame, postVerifyCreateGame_body. unfold_action.
  follow_branches. all: single_updates. all: advances.
Qed.

Lemma postVerifyJoinGame_advances env req w :
  world_advances w (postVerifyJoinGame env req w).2.
Proof.
  unfold postVerifyJoinGame, postVerifyJoinGame_body. unfold_action.
  follow_branches. all: single_updates. all: advances.
Qed.

Lemma postCompleteGame_advances env req w :
  world_advances w (postCompleteGame CHARGE_PERCENTAGE CAP_AMOUNT DRAW MATE env req w).2.
Proof.
  unfold postCompleteGame, postCompleteGame_body. unfold_action.
  follow_branches. all: single_updates. all: advances.
Qed.

(** X1. Whatever requests reach the POST routes, in whatever order and
    whatever the services answer, no row of the store is ever removed or
    moved, a row keeps its identifier, its Lichess game, its creator, its
    wager, its token, its addresses and its visibility, a verified game
    stays verified, a completed game stays completed, a recorded signature
    or opponent is never erased, and the payouts already attempted stay the
    first of the list. *)
Theorem lifecycle_only_advances w w' :
  rtc (step CHARGE_PERCENTAGE CAP_AMOUNT DRAW MATE DEFAULT_SOL_ADDRESS) w w' ->
  world_advances w w'.
Proof.
  induction 1 as [w|w w1 w2 Hstep _ IH]; [apply world_advances_refl|].
  apply (world_advances_trans _ w1); [|exact IH].
  destruct Hstep.
  - apply postCreateGame_advances.
  - apply postVerifyCreateGame_advances.
  - rewrite postJoinGame_reads. apply world_advances_refl.
  - unfold postPublicGames. fold (postJoinGame env req). rewrite postJoinGame_reads.
    apply world_advances_refl.
  - apply postVerifyJoinGame_advances.
  - apply postCompleteGame_advances.
Qed.

End Invariant.

(** ** Verification of a created game *)

(** An update of the rows of a Lichess game patches each of them. *)
Lemma filter_game_id_update gameId p (t : Db.Table) :
  filter (fun g => Db.game_id g = gameId) (Db.update gameId p t)
  = Db.apply_patch p <$> filter (fun g => Db.game_id g = gameId) t.
Proof.
  unfold Db.update. induction t as [|g t IH]; [reflexivity|].
  rewrite fmap_cons, (filter_cons _ g t), filter_cons, IH.
  destruct (decide (Db.game_id g = gameId)) as [Hk|Hk].
  - rewrite decide_True by done. reflexivity.
  - rewrite decide_False by done. reflexivity.
Qed.

Lemma select_game_id_update gameId p (t : Db.Table) :
  Db.select_game_id gameId (Db.update gameId p t)
  = Db.apply_patch p <$> Db.select_game_id gameId t.
Proof.
  unfold Db.select_game_id. rewrite filter_game_id_update.
  by destruct (filter _ t) as [|g [|g' rest]].
Qed.

(** The row of an identifier is the row of its Lichess game, when each is
    the only one. *)
Lemma select_id_game_id key gameId (t : Db.Table) g g0 :
  Db.select_id key t = Some g -> Db.game_id g = gameId ->
  Db.select_game_id gameId t = Some g0 -> g0 = g.
Proof.
  intros Hid Hg. unfold Db.select_game_id.
  destruct (filter _ t) as [|g1 [|]] eqn:E; simpl; try discriminate.
  intros [= ->].
  assert (Hin : g ∈ filter (fun g => Db.game_id g = gameId) t).
  { apply list_elem_of_filter. eauto using select_id_elem. }
  rewrite E in Hin. by apply list_elem_of_singleton in Hin.
Qed.

(** What a successful [postVerifyCreateGame] did. *)
Lemma postVerifyCreateGame_success env req w p w' :
  postVerifyCreateGame env req w = (res_json p, w') ->
  exists gameId game signature parsedTx,
    JS.truthy (query req !! "gameId") = Some gameId
    /\ store_select env = true
    /\ store_update env = true
    /\ Db.select_game_id gameId (games w) = Some game
    /\ confirm_signature env req = inr signature
    /\ fetch_transaction env signature = inr parsedTx
    /\ validateSignature game parsedTx = inr ()
    /\ w' = {| games := Db.update gameId (verify_patch signature) (games w);
               payouts := payouts w |}.
Proof.
  unfold postVerifyCreateGame, postVerifyCreateGame_body. unfold_action.
  intros H. follow_branches. single_updates.
  eexists _, _, _, _. repeat split; try eassumption; try reflexivity.
  by destruct u0.
Qed.

(** X3. A verify-create succeeds only on the one row of its Lichess game
    and only after the transaction of the signature passed
    [validateSignature] for that row; the row read back is then verified
    and carries the signature, its other fields and the payouts are as
    before.  A verify-create that fails leaves the world as it was. *)
Theorem postVerifyCreateGame_effect env req w :
  let result := postVerifyCreateGame env req w in
  (forall message, result.1 = res_status_400 message -> result.2 = w)
  /\ (forall p, result.1 = res_json p ->
      exists gameId game signature parsedTx,
        JS.truthy (query req !! "gameId") = Some gameId
        /\ Db.select_game_id gameId (games w) = Some game
        /\ JS.truthy (body_signature req) = Some signature
        /\ fetch_transaction env signature = inr parsedTx
        /\ validateSignature game parsedTx = inr ()
        /\ Db.select_game_id gameId (games result.2)
           = Some (Db.apply_patch (verify_patch signature) game)
        /\ Db.is_verified (Db.apply_patch (verify_patch signature) game) = true
        /\ Db.signature (Db.apply_patch (verify_patch signature) game) = Some signature
        /\ Db.status (Db.apply_patch (verify_patch signature) game) = Db.status game
        /\ payouts result.2 = payouts w).
Proof.
  intros result. split.
  - subst result. unfold postVerifyCreateGame, postVerifyCreateGame_body. unfold_action.
    intros message. follow_branches; try reflexivity; discriminate.
  - intros p Hp.
    destruct result as [r w'] eqn:E. simpl in *. subst r.
    destruct (postVerifyCreateGame_success _ _ _ _ _ E)
      as (gameId & game & signature & parsedTx & Hq & _ & _ & Hsel & Hsig & Hf & Hv & ->).
    exists gameId, game, signature, parsedTx. simpl.
    rewrite select_game_id_update, Hsel.
    repeat split; auto.
    unfold confirm_signature in Hsig.
    destruct (JS.truthy (body_signature req)); [|discriminate].
    repeat case_match; congruence.
Qed.

(** ** Payouts, and the rows of a Lichess game *)

Section Payouts.

Variables CHARGE_PERCENTAGE CAP_AMOUNT : JS.number.
Variables DRAW MATE : string.
Variable DEFAULT_SOL_ADDRESS : string.

(** X2. Creating, verifying, listing and joining never pay: the payouts
    after any of these requests are the payouts before it. *)
Theorem only_complete_pays env req w :
  payouts (postCreateGame DEFAULT_SOL_ADDRESS env req w).2 = payouts w
  /\ payouts (postVerifyCreateGame env req w).2 = payouts w
  /\ payouts (postJoinGame env req w).2 = payouts w
  /\ payouts (postPublicGames env req w).2 = payouts w
  /\ payouts (postVerifyJoinGame env req w).2 = payouts w.
Proof.
  repeat split.
  - unfold postCreateGame, postCreateGame_body. unfold_action.
    follow_branches; reflexivity.
  - unfold postVerifyCreateGame, postVerifyCreateGame_body. unfold_action.
    follow_branches; reflexivity.
  - by rewrite postJoinGame_reads.
  - unfold postPublicGames. fold (postJoinGame env req). by rewrite postJoinGame_reads.
  - unfold postVerifyJoinGame, postVerifyJoinGame_body. unfold_action.
    follow_branches; reflexivity.
Qed.

(** X13. A request that changes the payouts is a complete of a game that
    is verified and was not completed, made when Lichess reports the game
    as drawn or mated and the key of the house loads; the rows are then
    those before, or those with the game completed. *)
Theorem payout_requires_finished_game env req w :
  payouts (postCompleteGame CHARGE_PERCENTAGE CAP_AMOUNT DRAW MATE env req w).2 <> payouts w ->
  exists gameUid game stat,
    JS.truthy (query req !! "gameUid") = Some gameUid
    /\ Db.select_id gameUid (games w) = Some game
    /\ Db.is_verified game = true
    /\ Db.status game <> Db.completed
    /\ getGameStats env (Db.game_id game) = Some stat
    /\ (stat_status stat = Some DRAW \/ stat_status stat = Some MATE)
    /\ payer_keypair env = true.
Proof.
  unfold postCompleteGame, postCompleteGame_body. unfold_action.
  intros H. follow_branches; try (by destruct H).
  all: eexists _, _, _; split; [reflexivity|]; split; [eassumption|];
    split; [by apply negb_false_iff|];
    split; [by rewrite <- Status_eqb_eq, not_true_iff_false|];
    split; [eassumption|]; split; [|by apply negb_false_iff].
  all: match goal with
       | H : _ && _ = false |- _ =>
           apply andb_false_iff in H as [H|H]; apply bool_decide_eq_false in H;
           [left|right]; by apply dec_stable
       end.
Qed.

End Payouts.

(** [single] refuses a selection that has no row, or more than one. *)
Lemma select_game_id_not_single gameId (t : Db.Table) :
  length (filter (fun g => Db.game_id g = gameId) t) <> 1%nat ->
  Db.select_game_id gameId t = None.
Proof. unfold Db.select_game_id. by destruct (filter _ t) as [|g [|]]. Qed.

(** X4. A verify-create needs the store to hold exactly one row of the
    Lichess game: with none, or with more than one (nothing stops a second
    create of the same game), it is refused and changes nothing; the
    message is that the game is not found once the body is accepted. *)
Theorem postVerifyCreateGame_needs_one_row env req w gameId :
  JS.truthy (query req !! "gameId") = Some gameId ->
  length (filter (fun g => Db.game_id g = gameId) (games w)) <> 1%nat ->
  (exists message, postVerifyCreateGame env req w = (res_status_400 message, w))
  /\ (parse_account env (body_account req) <> inl (ThrowString Invalid_account) ->
      new_Connection (validatedClusterParams (query req)).1 = inr () ->
      forall signature, confirm_signature env req = inr signature ->
      postVerifyCreateGame env req w = (res_status_400 "Game not found", w)).
Proof.
  intros Hq Hn. pose proof (select_game_id_not_single _ _ Hn) as Hsel.
  unfold postVerifyCreateGame, postVerifyCreateGame_body. unfold_action.
  rewrite Hq. unfold validatedClusterParams. simpl. split.
  - rewrite Hsel. follow_branches; eexists; reflexivity.
  - intros Ha Hc signature Hs. rewrite Hc, Hs, Hsel.
    unfold parse_account in *. follow_branches; done.
Qed.

(** X5. The proof of a deposit is not bound to its payer nor used up: once
    a verify-create succeeded with a signature, a verify-join of that game
    by another player who presents the same signature succeeds too, and
    records that player as the opponent. *)
Theorem deposit_signature_replays env req w p w1 req' gameUid game username account :
  postVerifyCreateGame env req w = (res_json p, w1) ->
  JS.truthy (query req' !! "gameUid") = Some gameUid ->
  Db.select_id gameUid (games w) = Some game ->
  JS.truthy (query req !! "gameId") = Some (Db.game_id game) ->
  Db.status game = Db.created ->
  validateUsername env (query req') = inr username ->
  username <> Db.username game ->
  parse_account env (body_account req') = inr account ->
  account <> Db.player_address game ->
  new_Connection (validatedClusterParams (query req')).1 = inr () ->
  body_signature req' = body_signature req ->
  exists signature,
    JS.truthy (body_signature req) = Some signature
    /\ postVerifyJoinGame env req' w1
       = (res_json (CompletedAction "Start the duel!"),
          {| games := Db.update (Db.game_id game) (join_patch username account signature)
                        (games w1);
             payouts := payouts w1 |}).
Proof.
  intros H Hq' Hsel Hq Hst Hu Hnu Ha Hna Hc Hb.
  destruct (postVerifyCreateGame_success _ _ _ _ _ H)
    as (gameId & g0 & signature & parsedTx & Hq0 & Hs & Hup & Hsel0 & Hsig & Hf & Hv & ->).
  assert (gameId = Db.game_id game) as -> by congruence.
  assert (g0 = game) as -> by eauto using select_id_game_id.
  exists signature. split.
  { unfold confirm_signature in Hsig. follow_branches; congruence. }
  assert (Hsig' : confirm_signature env req' = inr signature).
  { unfold confirm_signature in *. by rewrite Hb. }
  pose proof (select_id_update_own gameUid (verify_patch signature) _ _ Hsel) as Hsel1.
  unfold postVerifyJoinGame, postVerifyJoinGame_body. unfold_action.
  unfold validatedClusterParams in Hc. simpl in Hc.
  rewrite Hq', Hs. cbn [games payouts fst snd]. rewrite Hsel1. simpl. rewrite Hst, Hu. simpl.
  rewrite decide_False by congruence. rewrite Ha. simpl.
  rewrite decide_False by congruence. rewrite Hc, Hsig', Hf. simpl.
  change (validateSignature (Db.apply_patch (verify_patch signature) game) parsedTx)
    with (validateSignature game parsedTx).
  pose proof (select_game_id_update (Db.game_id game) (verify_patch signature) (games w))
    as Hone.
  rewrite Hsel0 in Hone.
  rewrite Hv, Hup, (update_single_selected _ _ _ _ Hone). reflexivity.
Qed.

(** ** Validation of a new game *)

(** A value is truthy when it is present and not the empty string. *)
Lemma truthy_Some v s : JS.truthy v = Some s <-> v = Some s /\ s <> "".
Proof.
  unfold JS.truthy. destruct v as [s'|]; [|split; [discriminate|intros [? _]; discriminate]].
  destruct (String.eqb_spec s' ""); split; try discriminate.
  - intros [[= ->] ?]; contradiction.
  - intros [= ->]. auto.
  - intros [[= ->] _]. reflexivity.
Qed.

(** X7. [validatedQueryParams] accepts exactly the queries with a gameId, a
    username that Lichess knows, an amount whose text parses to a number
    above zero or to NaN, and a token of [TOKENS]; it returns these values,
    and a game is public as soon as the parameter public is not empty,
    whatever it says. *)
Theorem validatedQueryParams_accepts env q params :
  validatedQueryParams env q = inr params
  <-> q !! "gameId" = Some (qp_gameId params) /\ qp_gameId params <> ""
      /\ q !! "username" = Some (qp_username params) /\ qp_username params <> ""
      /\ getProfileDetail env (qp_username params) = true
      /\ (exists text,
            q !! "amount" = Some text /\ text <> ""
            /\ qp_amount params = JS.parseFloat text
            /\ ((0 <? qp_amount params) = true \/ is_nan (qp_amount params) = true))
      /\ q !! "token" = Some (qp_token params) /\ qp_token params ∈ TOKENS.values
      /\ (qp_isPublic params = true <-> exists s, q !! "public" = Some s /\ s <> "").
Proof.
  assert (Hpub : bool_decide (is_Some (JS.truthy (q !! "public"))) = true
                 <-> exists s, q !! "public" = Some s /\ s <> "").
  { rewrite bool_decide_eq_true. unfold is_Some.
    split; intros [s H]; exists s; by apply truthy_Some. }
  unfold validatedQueryParams. split.
  - intros H. follow_branches.
    repeat match goal with H : JS.truthy _ = Some _ |- _ => apply truthy_Some in H as [? ?] end.
    repeat split; auto.
    + by apply negb_false_iff.
    + eexists. repeat split; eauto. by apply leb_zero_false.
    + match goal with H : bool_decide _ = true |- _ => by apply bool_decide_eq_true in H end.
    + by apply Hpub.
    + by apply Hpub.
  - intros (Hg & Hg' & Hu & Hu' & Hp & (text & Ha & Ha' & Ham & Hpos) & Ht & Ht' & Hpb).
    rewrite (proj2 (truthy_Some _ _) (conj Hg Hg')), (proj2 (truthy_Some _ _) (conj Hu Hu')),
      Hp, (proj2 (truthy_Some _ _) (conj Ha Ha')). simpl.
    rewrite <- Ham. rewrite (proj2 (leb_zero_false _) Hpos).
    assert (Htne : qp_token params <> "").
    { intros E. rewrite E in Ht'. revert Ht'. by apply (bool_decide_eq_false_1 _). }
    rewrite (proj2 (truthy_Some _ _) (conj Ht Htne)).
    rewrite bool_decide_eq_true_2 by done.
    destruct params as [a u g t b]; simpl in *. f_equal. f_equal.
    destruct b; [by apply Hpub, Hpb|].
    apply not_true_iff_false. rewrite Hpub. intros Hs. by apply Hpb in Hs.
Qed.

(** X12. The validator of the stake route and the one of the server agree:
    on a query that the first accepts, the second returns the same amount,
    username, gameId and token once Lichess knows the username, and refuses
    otherwise; a query that the first refuses is refused by the second, with
    the same message, or with that of the username, which it checks
    earlier. *)
Theorem validatedQueryParams_refines_stake env q :
  match Stake.validatedQueryParams q with
  | inr s =>
      validatedQueryParams env q
      = if getProfileDetail env (Stake.username s) then
          inr {| qp_amount := Stake.amount s; qp_username := Stake.username s;
                 qp_gameId := Stake.gameId s; qp_token := Stake.token s;
                 qp_isPublic := bool_decide (is_Some (JS.truthy (q !! "public"))) |}
        else inl (ThrowString "Ensure you have entered a valid Lichess username")
  | inl thrown =>
      validatedQueryParams env q = inl thrown
      \/ validatedQueryParams env q
         = inl (ThrowString "Ensure you have entered a valid Lichess username")
  end.
Proof.
  unfold Stake.validatedQueryParams, validatedQueryParams.
  follow_branches; auto.
Qed.

(** No row is selected under an identifier that no row has. *)
Lemma filter_id_fresh key (t : Db.Table) :
  (forall g, g ∈ t -> Db.id g <> key) -> filter (fun g => Db.id g = key) t = [].
Proof.
  induction t as [|g t IH]; intros H; [reflexivity|].
  rewrite filter_cons, decide_False by (apply H; left).
  apply IH. intros g' Hin. apply H. by right.
Qed.

Section CreateLookup.

Variable DEFAULT_SOL_ADDRESS : string.

(** X6. A create whose parameters, account and cluster are accepted
    inserts its row before it builds the transaction: under an identifier
    that no row has yet, the game is then read back by [getGameById] with
    the values of the request, not verified and with the escrow account as
    recipient; its amount is the amount of the request when that is a
    finite number, and [null] when it is NaN or Infinity, which JSON does
    not carry.  The rows of before are read as before; and when the
    transaction cannot be built the answer is an error while the row
    stays. *)
Theorem postCreateGame_then_getGameById env env' req w params account new_id :
  validatedQueryParams env (query req) = inr params ->
  parse_account env (body_account req) = inr account ->
  new_Connection (validatedClusterParams (query req)).1 = inr () ->
  store_insert env = Some new_id ->
  (forall g, g ∈ games w -> Db.id g <> new_id) ->
  store_select env' = true ->
  let result := postCreateGame DEFAULT_SOL_ADDRESS env req w in
  (getGameById env' new_id result.2).1
  = inr (Some (created_row DEFAULT_SOL_ADDRESS new_id params account))
  /\ Db.amount (created_row DEFAULT_SOL_ADDRESS new_id params account)
     = (if is_finite (qp_amount params) then Some (qp_amount params) else None)
  /\ (forall key g, Db.select_id key (games w) = Some g -> key <> new_id ->
      Db.select_id key (games result.2) = Some g)
  /\ match transfer_to_escrow env (qp_token params) (qp_amount params) account with
     | inr payload => result.1 = res_json payload
     | inl _ => exists message, result.1 = res_status_400 message
     end.
Proof.
  intros Hp Ha Hc Hi Hfresh Hs result.
  assert (Hpos : (qp_amount params <=? 0) = false).
  { revert Hp. unfold validatedQueryParams. intros Hp. by follow_branches. }
  assert (Hw : games result.2 = (games w ++ [created_row DEFAULT_SOL_ADDRESS new_id params account])%list).
  { subst result. unfold postCreateGame, postCreateGame_body. unfold_action.
    unfold validatedClusterParams in Hc. simpl in Hc.
    rewrite Hp, Ha. simpl. rewrite Hc, Hi. simpl.
    destruct (transfer_to_escrow _ _ _ _) as [[]|]; reflexivity. }
  split; [|split; [|split]].
  - unfold getGameById. simpl. rewrite Hs, Hw. unfold Db.select_id.
    rewrite filter_app, filter_cons, filter_nil. simpl.
    rewrite decide_True by done.
    by rewrite filter_id_fresh.
  - simpl. by destruct (JSON_number_positive _ Hpos) as [[-> ->]|(-> & _ & ->)].
  - intros key g Hsel Hk. rewrite Hw. unfold Db.select_id in *.
    rewrite filter_app, filter_cons, filter_nil. simpl.
    rewrite decide_False by done. by rewrite app_nil_r.
  - subst result. unfold postCreateGame, postCreateGame_body. unfold_action.
    unfold validatedClusterParams in Hc. simpl in Hc.
    rewrite Hp, Ha. simpl. rewrite Hc, Hi. simpl.
    destruct (transfer_to_escrow _ _ _ _) as [[]|]; simpl; eauto.
Qed.

End CreateLookup.

(** ** The listing of the open games *)

(** [getPublicGames] answers, with the identifiers of the rows that pass
    the filter of [getUnMatchedGames]. *)
Lemma getPublicGames_options env req w :
  getPublicGames env req w
  = (inr {| href_query := ["clusterurl"; "cluster"; "username"; "gameId"];
            gameUid_options :=
              Db.id <$> (if store_select env then List.filter unmatched (games w) else []) |},
     w).
Proof. reflexivity. Qed.

(** An option of the listing is the identifier of a row that is verified,
    public and has status created. *)
Lemma offered_row env req w action gameUid :
  (getPublicGames env req w).1 = inr action ->
  gameUid ∈ gameUid_options action ->
  exists g, g ∈ games w /\ Db.id g = gameUid /\ unmatched g = true.
Proof.
  rewrite getPublicGames_options. intros [= <-]. simpl.
  intros (g & -> & Hin)%list_elem_of_fmap.
  destruct (store_select env); [|by apply elem_of_nil in Hin].
  apply list_elem_of_In, filter_In in Hin as [Hin Hu].
  exists g. by rewrite list_elem_of_In.
Qed.

(** The row that an identifier selects is the only row that has it. *)
Lemma select_id_only key (t : Db.Table) g g' :
  Db.select_id key t = Some g -> g' ∈ t -> Db.id g' = key -> g' = g.
Proof.
  unfold Db.select_id. intros Hsel Hin Hk.
  destruct (filter _ t) as [|g1 [|]] eqn:E; simpl in Hsel; try discriminate.
  injection Hsel as ->.
  assert (H : g' ∈ filter (fun g => Db.id g = key) t) by (by apply list_elem_of_filter).
  rewrite E in H. by apply list_elem_of_singleton in H.
Qed.

Section Listing.

Variables CHARGE_PERCENTAGE CAP_AMOUNT : JS.number.
Variables DRAW MATE : string.

(** X8. Once a complete succeeded, the game is no longer among the options
    of the listing of the open games. *)
Theorem completed_game_is_not_offered env env' req req' w p w1 action gameUid :
  postCompleteGame CHARGE_PERCENTAGE CAP_AMOUNT DRAW MATE env req w = (res_json p, w1) ->
  JS.truthy (query req !! "gameUid") = Some gameUid ->
  (getPublicGames env' req' w1).1 = inr action ->
  gameUid ∉ gameUid_options action.
Proof.
  intros H Hq Ha Hin.
  destruct (postCompleteGame_success _ _ _ _ _ _ _ _ _ H)
    as (gameUid' & game & new & Hq' & Hsel & _ & Hg & _).
  assert (gameUid' = gameUid) as -> by congruence.
  destruct (offered_row _ _ _ _ _ Ha Hin) as (g & Hg1 & Hid & Hu).
  pose proof (select_id_update_own gameUid completed_patch _ _ Hsel) as Hsel'.
  rewrite <- Hg in Hsel'.
  rewrite (select_id_only _ _ _ _ Hsel' Hg1 Hid) in Hu. discriminate.
Qed.

End Listing.

(** X9. Once a verify-create succeeded on a public game with status
    created, the listing of the open games offers the game; before the
    verification it did not. *)
Theorem verified_public_game_is_offered env env' req req' w p w1 gameUid game :
  postVerifyCreateGame env req w = (res_json p, w1) ->
  Db.select_id gameUid (games w) = Some game ->
  JS.truthy (query req !! "gameId") = Some (Db.game_id game) ->
  Db.is_public game = true ->
  Db.status game = Db.created ->
  store_select env' = true ->
  (exists action,
      (getPublicGames env' req' w1).1 = inr action /\ gameUid ∈ gameUid_options action)
  /\ (Db.is_verified game = false ->
      forall action, (getPublicGames env' req' w).1 = inr action ->
      gameUid ∉ gameUid_options action).
Proof.
  intros H Hsel Hq Hp Hst Hs. split.
  - destruct (postVerifyCreateGame_success _ _ _ _ _ H)
      as (gameId & g0 & signature & parsedTx & Hq0 & _ & _ & _ & _ & _ & _ & ->).
    assert (gameId = Db.game_id game) as -> by congruence.
    rewrite getPublicGames_options, Hs. eexists. split; [reflexivity|]. simpl.
    pose proof (select_id_update_own gameUid (verify_patch signature) _ _ Hsel) as Hsel1.
    apply select_id_elem in Hsel1 as Hin.
    apply list_elem_of_fmap. exists (Db.apply_patch (verify_patch signature) game).
    split.
    + simpl. unfold Db.select_id in Hsel.
      destruct (filter _ (games w)) as [|g1 [|]] eqn:E; simpl in Hsel; try discriminate.
      injection Hsel as ->.
      assert (Hi : game ∈ filter (fun g => Db.id g = gameUid) (games w))
        by (rewrite E; apply list_elem_of_singleton; reflexivity).
      apply list_elem_of_filter in Hi as [Hi _]. by symmetry.
    + apply list_elem_of_In, filter_In. split; [by apply list_elem_of_In|].
      unfold unmatched. simpl. by rewrite Hst, Hp.
  - intros Hv action Ha Hin.
    destruct (offered_row _ _ _ _ _ Ha Hin) as (g & Hg1 & Hid & Hu).
    rewrite (select_id_only _ _ _ _ Hsel Hg1 Hid) in Hu.
    unfold unmatched in Hu. rewrite Hv, andb_false_r in Hu. discriminate.
Qed.

(** X10. A game that the listing offers can be joined: a request of
    [postPublicGames] for that option, from a player whom Lichess knows,
    who is not the creator and does not use the address of the creator, is
    answered with the transaction of the wager of the game, as soon as that
    transaction can be built. *)
Theorem offered_game_is_joinable env env' req0 req w action gameUid game username account payload :
  (getPublicGames env' req0 w).1 = inr action ->
  gameUid ∈ gameUid_options action ->
  JS.truthy (query req !! "gameUid") = Some gameUid ->
  store_select env = true ->
  Db.select_id gameUid (games w) = Some game ->
  validateUsername env (query req) = inr username ->
  username <> Db.username game ->
  parse_account env (body_account req) = inr account ->
  account <> Db.player_address game ->
  new_Connection (validatedClusterParams (query req)).1 = inr () ->
  transfer_to_escrow env (Db.token game) (JS.ToNumber (Db.amount game)) account
  = inr payload ->
  postPublicGames env req w = (res_json payload, w).
Proof.
  intros Ha Hin Hq Hs Hsel Hu Hnu Hacc Hna Hc Ht.
  destruct (offered_row _ _ _ _ _ Ha Hin) as (g & Hg1 & Hid & Hun).
  rewrite (select_id_only _ _ _ _ Hsel Hg1 Hid) in Hun.
  unfold unmatched in Hun. apply andb_true_iff in Hun as [[Hst Hp]%andb_true_iff Hv].
  unfold postPublicGames, postJoinGame_body. unfold_action.
  unfold validatedClusterParams in Hc. simpl in Hc.
  rewrite Hu, Hq, Hs, Hsel, Hv, Hst. simpl.
  rewrite decide_False by congruence. rewrite Hacc. simpl.
  rewrite decide_False by congruence. by rewrite Hc, Ht.
Qed.

(** X11. The link of [getPublicGames] carries the chosen game under the
    name gameId, and [postPublicGames] reads gameUid: a request that has
    only the parameters of the link is refused, for a missing gameUid when
    its username is accepted, and changes nothing. *)
Theorem postPublicGames_refuses_its_link env env' req0 req w action :
  (getPublicGames env' req0 w).1 = inr action ->
  (forall name, is_Some (query req !! name) -> name ∈ href_query action) ->
  (exists message, postPublicGames env req w = (res_status_400 message, w))
  /\ (forall username, validateUsername env (query req) = inr username ->
      postPublicGames env req w
      = (res_status_400 "Missing input query parameter: gameUid", w)).
Proof.
  rewrite getPublicGames_options. intros [= <-] Hkeys. simpl in Hkeys.
  assert (Hq : query req !! "gameUid" = None).
  { destruct (query req !! "gameUid") eqn:E; [|reflexivity].
    specialize (Hkeys "gameUid" (ltac:(by rewrite E))).
    apply (bool_decide_pack _) in Hkeys. vm_compute in Hkeys. destruct Hkeys. }
  unfold postPublicGames, postJoinGame_body. unfold_action. rewrite Hq. simpl. split.
  - destruct (validateUsername env (query req)) as [[]|]; eexists; reflexivity.
  - by intros username ->.
Qed.

(** ** A store that fails after the payout *)

Section StoreFailure.

Variables CHARGE_PERCENTAGE CAP_AMOUNT : JS.number.
Variables DRAW MATE : string.

(** The steps of [postCompleteGame] up to the payout. *)
Ltac run_complete Hready :=
  destruct Hready
    as ((gameUid & Hq & Hsel) & Hs & Hv & Hst & (account & Hacc) & Hconn & Hstat & Hkey);
  unfold postCompleteGame, postCompleteGame_body; unfold_action;
  unfold validatedClusterParams in Hconn; simpl in Hconn;
  rewrite Hq, Hs; cbn [games payouts fst snd]; rewrite Hsel, Hv; simpl;
  replace (Db.Status_eqb (Db.status _) Db.completed) with false
    by (symmetry; apply not_true_iff_false; by rewrite Status_eqb_eq);
  rewrite Hacc, Hconn, Hstat, Hkey; simpl.

(** A draw whose refunds were sent, at the moment of the update. *)
Lemma postCompleteGame_draw_run env req w game stat :
  complete_ready env req w game stat ->
  stat_status stat = Some DRAW ->
  PublicKey_valid env (Db.player_address game) = true ->
  (forall address, JS.truthy (Db.opponent_address game) = Some address ->
                   PublicKey_valid env address = true) ->
  exists new,
    fst <$> new = draw_refunds CHARGE_PERCENTAGE CAP_AMOUNT game
    /\ postCompleteGame CHARGE_PERCENTAGE CAP_AMOUNT DRAW MATE env req w
       = match (if store_update env
                then Db.update_single (Db.game_id game) completed_patch (games w)
                else None) with
         | Some rows =>
             (res_json (CompletedAction "Game completed"),
              {| games := rows; payouts := (payouts w ++ new)%list |})
         | None =>
             (res_status_400 "Error updating game, please try again",
              {| games := games w; payouts := (payouts w ++ new)%list |})
         end.
Proof.
  intros Hready Hd Hp Ho. run_complete Hready.
  rewrite Hd. rewrite !bool_decide_eq_false_2 by (intros E; by apply E). simpl.
  rewrite decide_True by done. rewrite Hp. simpl. unfold draw_refunds.
  destruct (JS.truthy (Db.opponent_address game)) as [address|] eqn:E.
  - rewrite (Ho address eq_refl). simpl. rewrite <- app_assoc. simpl.
    eexists. split;
      [|destruct (store_update env); [destruct (Db.update_single _ _ _)|]; reflexivity].
    reflexivity.
  - simpl. eexists. split;
      [|destruct (store_update env); [destruct (Db.update_single _ _ _)|]; reflexivity].
    reflexivity.
Qed.

(** X14. The payout precedes the update of the store: when a draw is
    refunded and the store then refuses the update, the answer is an error
    and the game is not completed, so that the same request, repeated when
    the store works, sends the refunds a second time; it then succeeds and
    completes the game, when the game is the one row of its Lichess
    game. *)
Theorem postCompleteGame_pays_again_after_store_failure env env' req w game stat :
  complete_ready env req w game stat ->
  complete_ready env' req w game stat ->
  stat_status stat = Some DRAW ->
  (forall address, address ∈ recipientAddress <$> draw_refunds CHARGE_PERCENTAGE CAP_AMOUNT game ->
                   PublicKey_valid env address = true /\ PublicKey_valid env' address = true) ->
  store_update env = false ->
  store_update env' = true ->
  let first := postCompleteGame CHARGE_PERCENTAGE CAP_AMOUNT DRAW MATE env req w in
  let second := postCompleteGame CHARGE_PERCENTAGE CAP_AMOUNT DRAW MATE env' req first.2 in
  first.1 = res_status_400 "Error updating game, please try again"
  /\ games first.2 = games w
  /\ (Db.select_game_id (Db.game_id game) (games w) = Some game ->
      second.1 = res_json (CompletedAction "Game completed")
      /\ games second.2 = Db.update (Db.game_id game) completed_patch (games w))
  /\ fst <$> payouts second.2
     = ((fst <$> payouts w) ++ draw_refunds CHARGE_PERCENTAGE CAP_AMOUNT game ++ draw_refunds CHARGE_PERCENTAGE CAP_AMOUNT game)%list.
Proof.
  intros Hready Hready' Hd Hvalid Hu Hu' first second.
  assert (Hp : forall e, (e = env \/ e = env') ->
             PublicKey_valid e (Db.player_address game) = true
             /\ forall address, JS.truthy (Db.opponent_address game) = Some address ->
                                PublicKey_valid e address = true).
  { intros e He. split.
    - destruct (Hvalid (Db.player_address game)) as [H1 H2]; [by left|].
      by destruct He as [->| ->].
    - intros address Ha. destruct (Hvalid address) as [H1 H2].
      + unfold draw_refunds. rewrite Ha. simpl. right. by left.
      + by destruct He as [->| ->]. }
  destruct (Hp env (or_introl eq_refl)) as [Hc Ho].
  destruct (Hp env' (or_intror eq_refl)) as [Hc' Ho'].
  destruct (postCompleteGame_draw_run env req w game stat Hready Hd Hc Ho) as (new & Hn & H1).
  rewrite Hu in H1. fold first in H1.
  assert (Hready1 : complete_ready env' req first.2 game stat).
  { rewrite H1. exact Hready'. }
  destruct (postCompleteGame_draw_run env' req first.2 game stat Hready1 Hd Hc' Ho')
    as (new' & Hn' & H2).
  rewrite Hu' in H2. fold second in H2. rewrite H1 in H2. simpl in H2.
  rewrite H1. simpl. split; [reflexivity|]. split; [reflexivity|]. split.
  - intros Hone. rewrite (update_single_selected _ _ _ _ Hone) in H2. by rewrite H2.
  - destruct (Db.update_single _ _ _); rewrite H2; simpl;
      by rewrite !fmap_app, Hn, Hn', <- app_assoc.
Qed.

End StoreFailure.

(** ** The form of a new game *)

(** X15. Whatever answer of the form of [getCreateGame] a player gives to
    the question whether the game is public, the game that [postCreateGame]
    inserts is public: the answer No is the text false, which is truthy.
    And every token that the form offers is one that the validation
    accepts. *)
Theorem create_form_only_makes_public_games DEFAULT_SOL_ADDRESS env req w answer game :
  answer ∈ public_options (getCreateGame req) ->
  query req !! "public" = Some answer ->
  games (postCreateGame DEFAULT_SOL_ADDRESS env req w).2 = (games w ++ [game])%list ->
  Db.is_public game = true
  /\ forall token, token ∈ token_options (getCreateGame req) -> token ∈ TOKENS.values.
Proof.
  intros Hin Hq Hg. split; [|intros token H; exact H].
  assert (Hp : bool_decide (is_Some (JS.truthy (query req !! "public"))) = true).
  { rewrite Hq. simpl in Hin.
    apply elem_of_cons in Hin as [->|Hin]; [reflexivity|].
    apply elem_of_cons in Hin as [->|Hin]; [reflexivity|].
    by apply elem_of_nil in Hin. }
  revert Hg. unfold postCreateGame, postCreateGame_body, validatedQueryParams. unfold_action.
  rewrite Hp. follow_branches; intros Hg.
  all: try (apply (f_equal length) in Hg; rewrite length_app in Hg; simpl in Hg; lia).
  all: apply app_inv_head in Hg; by injection Hg as <-.
Qed.

(** ** A second game on a Lichess game *)

(** X19. [postCreateGame] does not look for a row of the Lichess game
    before it inserts one: a create that names the game of an existing row
    is accepted, and from then on every verify-create of that game is
    refused, since its selection has more than one row. *)
Theorem second_create_blocks_verification DEFAULT_SOL_ADDRESS env req w params account new_id game :
  validatedQueryParams env (query req) = inr params ->
  parse_account env (body_account req) = inr account ->
  new_Connection (validatedClusterParams (query req)).1 = inr () ->
  store_insert env = Some new_id ->
  game ∈ games w ->
  Db.game_id game = qp_gameId params ->
  let w' := (postCreateGame DEFAULT_SOL_ADDRESS env req w).2 in
  games w' = (games w ++ [created_row DEFAULT_SOL_ADDRESS new_id params account])%list
  /\ forall env' req',
      JS.truthy (query req' !! "gameId") = Some (qp_gameId params) ->
      exists message, postVerifyCreateGame env' req' w' = (res_status_400 message, w').
Proof.
  intros Hp Ha Hc Hi Hin Hg w'.
  assert (Hw : games w' = (games w ++ [created_row DEFAULT_SOL_ADDRESS new_id params account])%list).
  { subst w'. unfold postCreateGame, postCreateGame_body. unfold_action.
    unfold validatedClusterParams in Hc. simpl in Hc.
    rewrite Hp, Ha. simpl. rewrite Hc, Hi. simpl.
    destruct (transfer_to_escrow _ _ _ _) as [[]|]; reflexivity. }
  clearbody w'. split; [assumption|].
  intros env' req' Hq.
  assert (Hsel : Db.select_game_id (qp_gameId params) (games w') = None).
  { apply select_game_id_not_single. rewrite Hw, filter_app, length_app.
    rewrite (filter_cons _ (created_row _ _ _ _)), decide_True by reflexivity.
    assert (Hf : game ∈ filter (fun g => Db.game_id g = qp_gameId params) (games w))
      by (by apply list_elem_of_filter).
    destruct (filter _ (games w)); [by apply elem_of_nil in Hf|]. simpl. lia. }
  unfold postVerifyCreateGame, postVerifyCreateGame_body. unfold_action.
  rewrite Hq. simpl. rewrite Hsel. follow_branches; eexists; reflexivity.
Qed.

(** ** More theorems on the sample deployment *)

Lemma lifecycle_only_advances_witness :
  let w1 :=
    (postVerifyCreateGame Sample.services Scenario.verify_create_request
       (Sample.world_of Sample.game_created)).2 in
  let w2 :=
    (postVerifyJoinGame Sample.services
       (Sample.join_request "bob" Sample.bob_address "sig-bob") w1).2 in
  let w3 :=
    (postCompleteGame Sample.CHARGE_PERCENTAGE Sample.CAP_AMOUNT Sample.DRAW Sample.MATE
       Sample.services Sample.complete_request w2).2 in
  world_advances (Sample.world_of Sample.game_created) w3.
Proof.
  intros w1 w2 w3.
  apply (lifecycle_only_advances Sample.CHARGE_PERCENTAGE Sample.CAP_AMOUNT Sample.DRAW
           Sample.MATE Sample.escrow).
  apply (rtc_l _ _ w1); [apply step_verifyCreateGame|].
  apply (rtc_l _ _ w2); [apply step_verifyJoinGame|].
  apply rtc_once. apply step_completeGame.
Defined.

Lemma payout_requires_finished_game_witness :
  exists gameUid game stat,
    JS.truthy (query Sample.complete_request !! "gameUid") = Some gameUid
    /\ Db.select_id gameUid (games (Sample.world_of Sample.game_joined)) = Some game
    /\ Db.is_verified game = true
    /\ Db.status game <> Db.completed
    /\ getGameStats Sample.services (Db.game_id game) = Some stat
    /\ (stat_status stat = Some Sample.DRAW \/ stat_status stat = Some Sample.MATE)
    /\ payer_keypair Sample.services = true.
Proof.
  apply (payout_requires_finished_game Sample.CHARGE_PERCENTAGE Sample.CAP_AMOUNT).
  vm_compute. discriminate.
Defined.

Lemma postVerifyCreateGame_needs_one_row_witness :
  let w := {| games := [Sample.game_created; Scenario.game_created_again]; payouts := [] |} in
  postVerifyCreateGame Sample.services Scenario.verify_create_request w
  = (res_status_400 "Game not found", w).
Proof.
  intros w.
  destruct (postVerifyCreateGame_needs_one_row Sample.services Scenario.verify_create_request
              w "LRy93nnW" eq_refl) as [_ H].
  - vm_compute. discriminate.
  - apply (H ltac:(discriminate) eq_refl "sig-alice" eq_refl).
Defined.

Lemma deposit_signature_replays_witness :
  postVerifyJoinGame Sample.services
    (Sample.join_request "bob" Sample.bob_address "sig-alice")
    (Sample.world_of Sample.game_verified)
  = (res_json (CompletedAction "Start the duel!"),
     {| games := Db.update "LRy93nnW" (join_patch "bob" Sample.bob_address "sig-alice")
                   [Sample.game_verified];
        payouts := [] |}).
Proof.
  destruct (deposit_signature_replays Sample.services Scenario.verify_create_request
              (Sample.world_of Sample.game_created) (CompletedAction "Get ready to duel!")
              (Sample.world_of Sample.game_verified)
              (Sample.join_request "bob" Sample.bob_address "sig-alice")
              "id-1" Sample.game_created "bob" Sample.bob_address
              eq_refl eq_refl eq_refl eq_refl eq_refl eq_refl
              ltac:(discriminate) eq_refl ltac:(discriminate) eq_refl eq_refl)
    as (signature & Hs & H).
  injection Hs as <-. exact H.
Defined.

Lemma postCreateGame_then_getGameById_witness :
  let params :=
    {| qp_amount := 1; qp_username := "alice"; qp_gameId := "LRy93nnW";
       qp_token := "SOL"; qp_isPublic := false |} in
  let result :=
    postCreateGame Sample.escrow Sample.services (Sample.create_request "1")
      {| games := []; payouts := [] |} in
  (getGameById Sample.services "id-1" result.2).1
  = inr (Some (created_row Sample.escrow "id-1" params Sample.alice_address))
  /\ Db.amount (created_row Sample.escrow "id-1" params Sample.alice_address) = Some 1.
Proof.
  intros params result.
  destruct (postCreateGame_then_getGameById Sample.escrow Sample.services Sample.services
              (Sample.create_request "1") {| games := []; payouts := [] |}
              params Sample.alice_address "id-1" eq_refl eq_refl eq_refl eq_refl
              (fun g Hg => False_ind _ (proj1 (elem_of_nil g) Hg)) eq_refl) as (H1 & H2 & _).
  split; [exact H1|exact H2].
Defined.

Lemma completed_game_is_not_offered_witness :
  let first :=
    postCompleteGame Sample.CHARGE_PERCENTAGE Sample.CAP_AMOUNT Sample.DRAW Sample.MATE
      Sample.services Sample.complete_request (Sample.world_of Sample.game_joined) in
  "id-1" ∉ Db.id <$> List.filter unmatched (games first.2).
Proof.
  intros first.
  change ("id-1" ∉ gameUid_options
                     {| href_query := ["clusterurl"; "cluster"; "username"; "gameId"];
                        gameUid_options :=
                          Db.id <$> List.filter unmatched (games first.2) |}).
  apply (completed_game_is_not_offered Sample.CHARGE_PERCENTAGE Sample.CAP_AMOUNT Sample.DRAW
           Sample.MATE Sample.services Sample.services Sample.complete_request
           Sample.complete_request (Sample.world_of Sample.game_joined)
           (CompletedAction "Game completed") first.2
           {| href_query := ["clusterurl"; "cluster"; "username"; "gameId"];
              gameUid_options := Db.id <$> List.filter unmatched (games first.2) |}).
  - vm_compute. reflexivity.
  - reflexivity.
  - reflexivity.
Defined.

Lemma verified_public_game_is_offered_witness :
  exists action,
    (getPublicGames Sample.services Scenario.listing_link_request
       (Sample.world_of Sample.game_verified)).1 = inr action
    /\ "id-1" ∈ gameUid_options action.
Proof.
  destruct (verified_public_game_is_offered Sample.services Sample.services
              Scenario.verify_create_request Scenario.listing_link_request
              (Sample.world_of Sample.game_created) (CompletedAction "Get ready to duel!")
              (Sample.world_of Sample.game_verified) "id-1" Sample.game_created
              eq_refl eq_refl eq_refl eq_refl eq_refl eq_refl) as [H _].
  exact H.
Defined.

Lemma offered_game_is_joinable_witness :
  postPublicGames Sample.services (Sample.join_request "bob" Sample.bob_address "sig-bob")
    (Sample.world_of Sample.game_verified)
  = (res_json (ActionPostResponse Sample.bob_address "SOL" 1000000000),
     Sample.world_of Sample.game_verified).
Proof.
  apply (offered_game_is_joinable Sample.services Sample.services Scenario.listing_link_request
           (Sample.join_request "bob" Sample.bob_address "sig-bob")
           (Sample.world_of Sample.game_verified)
           {| href_query := ["clusterurl"; "cluster"; "username"; "gameId"];
              gameUid_options := ["id-1"] |}
           "id-1" Sample.game_verified "bob" Sample.bob_address);
    try reflexivity; try discriminate.
  apply list_elem_of_here.
Defined.

(** The request made of the link of the listing has the parameters of the
    link, and no other. *)
Lemma listing_link_keys name :
  is_Some (query Scenario.listing_link_request !! name) ->
  name ∈ ["clusterurl"; "cluster"; "username"; "gameId"].
Proof.
  intros [v Hv]. apply elem_of_list_to_map_2 in Hv.
  repeat (apply elem_of_cons in Hv as [[= -> ->]|Hv]; [set_solver|]).
  by apply elem_of_nil in Hv.
Qed.

Lemma postPublicGames_refuses_its_link_witness :
  postPublicGames Sample.services Scenario.listing_link_request
    (Sample.world_of Sample.game_verified)
  = (res_status_400 "Missing input query parameter: gameUid",
     Sample.world_of Sample.game_verified).
Proof.
  destruct (postPublicGames_refuses_its_link Sample.services Sample.services
              Scenario.listing_link_request Scenario.listing_link_request
              (Sample.world_of Sample.game_verified)
              {| href_query := ["clusterurl"; "cluster"; "username"; "gameId"];
                 gameUid_options := ["id-1"] |}
              eq_refl listing_link_keys) as [_ H].
  apply (H "bob"). reflexivity.
Defined.

(** The joined game of the sample is ready for its payout on the day when
    the store refuses updates. *)
Lemma complete_ready_store_refuses :
  complete_ready Scenario.store_refuses Sample.complete_request
    (Sample.world_of Sample.game_joined) Sample.game_joined Sample.draw_stats.
Proof.
  split; [exists "id-1"; split; reflexivity|].
  repeat split; try reflexivity; try discriminate.
  eexists; reflexivity.
Defined.

(** The two players of the sample have addresses that are accepted. *)
Lemma draw_refunds_sample_valid address :
  address ∈ recipientAddress
              <$> draw_refunds Sample.CHARGE_PERCENTAGE Sample.CAP_AMOUNT Sample.game_joined ->
  PublicKey_valid Scenario.store_refuses address = true
  /\ PublicKey_valid Sample.services address = true.
Proof.
  unfold draw_refunds. simpl. intros H.
  apply elem_of_cons in H as [->|H]; [split; reflexivity|].
  apply elem_of_cons in H as [->|H]; [split; reflexivity|].
  by apply elem_of_nil in H.
Qed.

Lemma postCompleteGame_pays_again_after_store_failure_witness :
  let first :=
    postCompleteGame Sample.CHARGE_PERCENTAGE Sample.CAP_AMOUNT Sample.DRAW Sample.MATE
      Scenario.store_refuses Sample.complete_request (Sample.world_of Sample.game_joined) in
  let second :=
    postCompleteGame Sample.CHARGE_PERCENTAGE Sample.CAP_AMOUNT Sample.DRAW Sample.MATE
      Sample.services Sample.complete_request first.2 in
  first.1 = res_status_400 "Error updating game, please try again"
  /\ games first.2 = games (Sample.world_of Sample.game_joined)
  /\ second.1 = res_json (CompletedAction "Game completed")
  /\ games second.2
     = Db.update (Db.game_id Sample.game_joined) completed_patch
         (games (Sample.world_of Sample.game_joined))
  /\ fst <$> payouts second.2
     = ((fst <$> payouts (Sample.world_of Sample.game_joined))
        ++ draw_refunds Sample.CHARGE_PERCENTAGE Sample.CAP_AMOUNT Sample.game_joined
        ++ draw_refunds Sample.CHARGE_PERCENTAGE Sample.CAP_AMOUNT Sample.game_joined)%list.
Proof.
  destruct (postCompleteGame_pays_again_after_store_failure
              Sample.CHARGE_PERCENTAGE Sample.CAP_AMOUNT Sample.DRAW Sample.MATE
              Scenario.store_refuses Sample.services Sample.complete_request
              (Sample.world_of Sample.game_joined) Sample.game_joined Sample.draw_stats
              complete_ready_store_refuses (complete_ready_sample _) eq_refl
              draw_refunds_sample_valid eq_refl eq_refl) as (H1 & H2 & H3 & H4).
  destruct (H3 eq_refl) as [H5 H6].
  repeat split; assumption.
Defined.

Lemma create_form_only_makes_public_games_witness :
  let result :=
    postCreateGame Sample.escrow Sample.services Scenario.private_create_request
      {| games := []; payouts := [] |} in
  exists game, games result.2 = [game] /\ Db.is_public game = true.
Proof.
  intros result.
  exists (created_row Sample.escrow "id-1"
            {| qp_amount := 1; qp_username := "alice"; qp_gameId := "LRy93nnW";
               qp_token := "SOL"; qp_isPublic := true |} Sample.alice_address).
  split; [vm_compute; reflexivity|].
  apply (create_form_only_makes_public_games Sample.escrow Sample.services
           Scenario.private_create_request {| games := []; payouts := [] |} "false").
  - apply list_elem_of_further, list_elem_of_here.
  - reflexivity.
  - vm_compute. reflexivity.
Defined.

Lemma postVerifyJoinGame_no_self_match_witness :
  Forall no_self_match_row
    (games (postVerifyJoinGame Sample.services
              (Sample.join_request "bob" Sample.bob_address "sig-bob")
              (Sample.world_of Sample.game_verified)).2).
Proof.
  apply (postVerifyJoinGame_no_self_match Sample.services
           (Sample.join_request "bob" Sample.bob_address "sig-bob")
           (Sample.world_of Sample.game_verified)).
  - apply NoDup_singleton.
  - apply Forall_singleton. split; discriminate.
Defined.

Lemma validateSignature_transferChecked_witness :
  exists tokenInfo units,
    tokenInfo ∈ SPL_MAP_values
    /\ Some "DezXAZ8z7PnrnRJjz3wXBoRgixCa6xjnB7YaB1pPB263" = Some (mint tokenInfo)
    /\ Some 100000%Z = Some units
    /\ Some Sample.escrow = Some (Db.recipient_address Sample.usdc_game)
    /\ JS.strict_equal (digits_to_number units / Math_pow10 (decimals tokenInfo))
         (Db.amount Sample.usdc_game) = true.
Proof.
  apply (validateSignature_transferChecked Sample.usdc_game "spl-token"
           {| destination := Some Sample.escrow; lamports := None;
              info_mint := Some "DezXAZ8z7PnrnRJjz3wXBoRgixCa6xjnB7YaB1pPB263";
              tokenAmount := Some 100000%Z |} []).
  - discriminate.
  - vm_compute. reflexivity.
Defined.

Lemma postVerifyCreateGame_effect_witness :
  let result :=
    postVerifyCreateGame Sample.services Scenario.verify_create_request
      (Sample.world_of Sample.game_created) in
  exists gameId game signature parsedTx,
    JS.truthy (query Scenario.verify_create_request !! "gameId") = Some gameId
    /\ Db.select_game_id gameId (games (Sample.world_of Sample.game_created)) = Some game
    /\ JS.truthy (body_signature Scenario.verify_create_request) = Some signature
    /\ fetch_transaction Sample.services signature = inr parsedTx
    /\ validateSignature game parsedTx = inr ()
    /\ Db.select_game_id gameId (games result.2)
       = Some (Db.apply_patch (verify_patch signature) game)
    /\ Db.is_verified (Db.apply_patch (verify_patch signature) game) = true
    /\ Db.signature (Db.apply_patch (verify_patch signature) game) = Some signature
    /\ Db.status (Db.apply_patch (verify_patch signature) game) = Db.status game
    /\ payouts result.2 = payouts (Sample.world_of Sample.game_created).
Proof.
  intros result.
  destruct (postVerifyCreateGame_effect Sample.services Scenario.verify_create_request
              (Sample.world_of Sample.game_created)) as [_ H].
  apply (H (CompletedAction "Get ready to duel!")). reflexivity.
Defined.

Lemma second_create_blocks_verification_witness :
  let w' :=
    (postCreateGame Sample.escrow Scenario.services_of_second_row (Sample.create_request "1")
       (Sample.world_of Sample.game_created)).2 in
  games w'
  = [Sample.game_created;
     created_row Sample.escrow "id-2"
       {| qp_amount := 1; qp_username := "alice"; qp_gameId := "LRy93nnW";
          qp_token := "SOL"; qp_isPublic := false |} Sample.alice_address]
  /\ exists message,
      postVerifyCreateGame Sample.services Scenario.verify_create_request w'
      = (res_status_400 message, w').
Proof.
  intros w'.
  destruct (second_create_blocks_verification Sample.escrow Scenario.services_of_second_row
              (Sample.create_request "1") (Sample.world_of Sample.game_created)
              {| qp_amount := 1; qp_username := "alice"; qp_gameId := "LRy93nnW";
                 qp_token := "SOL"; qp_isPublic := false |}
              Sample.alice_address "id-2" Sample.game_created
              eq_refl eq_refl eq_refl eq_refl (list_elem_of_here _ _) eq_refl) as [H1 H2].
  split.
  - exact H1.
  - apply (H2 Sample.services Scenario.verify_create_request). reflexivity.
Defined.
